(** * Fireboard and Tailscale sensor platforms: projection of polled device
      lists into keyed entity records, and the entity views reading them.

    Embedded sources:
    - [homeassistant/components/fboard/sensor.py]
    - [homeassistant/components/tailscale/sensor.py] *)

From Stdlib Require Import Floats ZArith Ascii.
From stdpp Require Import gmap strings list fin_maps pretty.

Set Warnings "-inexact-float".
Local Open Scope Z_scope.

(** ** Python values *)

(** A JSON number as Python holds it: an [int] of any size or a binary64
    [float]. *)
Inductive pynum :=
  | PyInt (z : Z)
  | PyFloat (f : float).

(** A number or [None]. *)
Definition pyval := option pynum.

(** [x * 100] for a number [x]: exact on [int], one rounded binary64
    product on [float] (the [int] operand 100 converts exactly). *)
Definition times_100 (x : pynum) : pynum :=
  match x with
  | PyInt z => PyInt (z * 100)
  | PyFloat f => PyFloat (f * 100)%float
  end.

(** Exceptions that occur: [KeyError] from a dict lookup, those the API
    client and the timeout raise, and those [async_update_data] raises for
    the coordinator. *)
Inductive exn :=
  | KeyError (key : string)
  | FireboardApiAuthError
  | FireboardApiError (err : string)
  | TimeoutError
  | ClientError
  | ConfigEntryAuthFailed
  | UpdateFailed (msg : string).

Inductive result (A : Type) :=
  | Ok (a : A)
  | Raise (e : exn).
Arguments Ok {A} a.
Arguments Raise {A} e.

Global Instance result_bind : MBind result := λ A B k r,
  match r with
  | Ok a => k a
  | Raise e => Raise e
  end.

(** [d[k]] on a [dict] with [str] keys. *)
Definition getitem {V} (d : gmap string V) (k : string) : result V :=
  match d !! k with
  | Some v => Ok v
  | None => Raise (KeyError k)
  end.

(** [needle in hay] on [str]. *)
Fixpoint str_contains (needle hay : string) : bool :=
  String.prefix needle hay ||
  match hay with
  | EmptyString => false
  | String _ rest => str_contains needle rest
  end.

(** [f"{n:02}"] for an [int]: sign-aware zero padding to a minimum width of
    two characters. Only a single non-negative digit is shorter than that. *)
Definition format_02 (n : Z) : string :=
  if bool_decide (0 ≤ n < 10) then "0" +:+ pretty n else pretty n.

(** The two decimal digits of an index from 0 to 99, tens first. *)
Definition digit (k : Z) : ascii := pretty_N_char (Z.to_N k).

Definition two_digits (n : Z) : string :=
  String (digit (n `div` 10)) (String (digit (n `mod` 10)) "").

(** ** Constants imported by the platform *)

(** Modelled from the spec: [homeassistant.const.PERCENTAGE] is not among
    the sources; the spec's example gives the battery unit as the percent
    sign. *)
Definition PERCENTAGE : string := "%".

(** Modelled from the spec: [TEMP_CELSIUS] of the API client is not among
    the sources; the spec's example gives the unit as the degree sign
    followed by C. *)
Definition TEMP_CELSIUS : string := "°C".

(** Modelled from the spec: [homeassistant.const.TEMP_FAHRENHEIT] is not
    among the sources; the Fahrenheit scale of the spec, written like the
    Celsius one. *)
Definition TEMP_FAHRENHEIT : string := "°F".

(** Modelled from the spec: the device classes of [homeassistant.const] are
    not among the sources; the spec names the kinds battery and
    channel reading, which the platform reports as temperature. *)
Definition DEVICE_CLASS_BATTERY : string := "battery".
Definition DEVICE_CLASS_TEMPERATURE : string := "temperature".

(** Modelled from the spec: [device_registry.CONNECTION_NETWORK_MAC] is not
    among the sources; the tag of the MAC entry among the network
    identifiers of a device identity. *)
Definition CONNECTION_NETWORK_MAC : string := "mac".

(** ** Raw device records, as [list_devices] returns them *)

(** One element of [device_data["latest_temps"]]. *)
Record Reading := {
  reading_channel : Z;
  temp : pyval;
}.

(** One element of [device_data["channels"]]. *)
Record Channel := {
  channel : Z;
  channel_label : string;
}.

Record RawDevice := {
  hardware_id : string;
  uuid : string;
  id : Z;
  model : string;
  title : string;
  version : string;
  macNIC : string;
  last_battery_reading : pynum;
  degreetype : Z;
  channels : list Channel;
  latest_temps : list Reading;
}.

(** ** Projected records *)

(** The [parent_device] dict shared by all records of one device. *)
Record ParentDevice := {
  pd_hardware_id : string;
  pd_uuid : string;
  pd_id : Z;
  pd_manufacturer : string;
  pd_model : string;
  pd_name : string;
  pd_sw_version : string;
  pd_mac_id : string;
  pd_battery : pynum;
  pd_unit_of_measurement : string;
}.

(** The two shapes of dict stored in [entities]: [battery_sensor] has the
    keys [parent_device] and [unique_id]; [sensor_entity] has those of the
    channel sub-record and [parent_device], [state], [unique_id]. *)
Inductive Entity :=
  | battery_sensor (parent : ParentDevice) (unique_id : string)
  | sensor_entity (channel_data : Channel) (parent : ParentDevice)
      (state : pyval) (unique_id : string).

Definition parent_device (e : Entity) : ParentDevice :=
  match e with
  | battery_sensor p _ => p
  | sensor_entity _ p _ _ => p
  end.

(** [e["state"]] and [e["channel_label"]]: keys of a channel record only. *)
Definition entity_state (e : Entity) : result pyval :=
  match e with
  | battery_sensor _ _ => Raise (KeyError "state")
  | sensor_entity _ _ s _ => Ok s
  end.

Definition entity_channel_label (e : Entity) : result string :=
  match e with
  | battery_sensor _ _ => Raise (KeyError "channel_label")
  | sensor_entity c _ _ _ => Ok (channel_label c)
  end.

(** ** The projection inside [async_update_data] *)

Definition unit_of_measurement_of (device_data : RawDevice) : string :=
  if bool_decide (degreetype device_data = 2) then TEMP_FAHRENHEIT
  else TEMP_CELSIUS.

Definition parent_device_of (device_data : RawDevice) : ParentDevice := {|
  pd_hardware_id := hardware_id device_data;
  pd_uuid := uuid device_data;
  pd_id := id device_data;
  pd_manufacturer := "Fireboard Labs";
  pd_model := model device_data;
  pd_name := title device_data;
  pd_sw_version := version device_data;
  pd_mac_id := macNIC device_data;
  pd_battery := times_100 (last_battery_reading device_data);
  pd_unit_of_measurement := unit_of_measurement_of device_data;
|}.

(** [next((x["temp"] for x in latest_temps if x["channel"] == ch), None)] *)
Fixpoint channel_temp (latest : list Reading) (ch : Z) : pyval :=
  match latest with
  | [] => None
  | x :: rest =>
      if bool_decide (reading_channel x = ch) then temp x
      else channel_temp rest ch
  end.

Definition battery_unique_id (hw : string) : string := hw +:+ "_battery".

Definition channel_unique_id (hw : string) (ch : Z) : string :=
  hw +:+ "_" +:+ format_02 ch.

(** One turn of the inner loop over [device_data["channels"]]. *)
Definition add_channel (parent : ParentDevice) (latest : list Reading)
    (entities : gmap string Entity) (channel_data : Channel)
    : gmap string Entity :=
  let temp := channel_temp latest (channel channel_data) in
  let unique_id := channel_unique_id (pd_hardware_id parent) (channel channel_data) in
  <[unique_id := sensor_entity channel_data parent temp unique_id]> entities.

(** One turn of the outer loop over [device_list_data]. *)
Definition add_device (entities : gmap string Entity) (device_data : RawDevice)
    : gmap string Entity :=
  let parent := parent_device_of device_data in
  let bid := battery_unique_id (pd_hardware_id parent) in
  foldl (add_channel parent (latest_temps device_data))
        (<[bid := battery_sensor parent bid]> entities)
        (channels device_data).

Definition project (device_list_data : list RawDevice) : gmap string Entity :=
  foldl add_device ∅ device_list_data.

(** The body of [async_update_data], given what awaiting
    [api_client.list_devices()] under the ten-second timeout gave: the
    device list, or the exception raised. Only the two API exceptions are
    caught; any other propagates. *)
Definition async_update_data (fetched : result (list RawDevice))
    : result (gmap string Entity) :=
  match fetched with
  | Ok device_list_data => Ok (project device_list_data)
  | Raise FireboardApiAuthError => Raise ConfigEntryAuthFailed
  | Raise (FireboardApiError err) =>
      Raise (UpdateFailed ("Error communicating with API: " +:+ err))
  | Raise e => Raise e
  end.

(** ** Entity views *)

Record DeviceInfo := {
  manufacturer : string;
  di_model : string;
  di_name : string;
  sw_version : string;
  identifiers : gset (string * string);
  connections : gset (string * string);
}.

(** The [device_info] dict both classes build from [raw_data]. *)
Definition device_info_of (raw_data : Entity) : DeviceInfo := {|
  manufacturer := pd_manufacturer (parent_device raw_data);
  di_model := pd_model (parent_device raw_data);
  di_name := pd_name (parent_device raw_data);
  sw_version := pd_sw_version (parent_device raw_data);
  identifiers := {[ ("fireboard", pd_hardware_id (parent_device raw_data)) ]};
  connections := {[ (CONNECTION_NETWORK_MAC, pd_mac_id (parent_device raw_data)) ]};
|}.

(** A view holds its key; [data] is [self.coordinator.data] at the time of
    the access. *)
Module FireboardBattery.
Record t := new { _unique_id : string }.

Definition raw_data (data : gmap string Entity) (self : t) : result Entity :=
  getitem data (_unique_id self).

Definition unique_id (self : t) : string := _unique_id self.

Definition name (data : gmap string Entity) (self : t) : result string :=
  r ← raw_data data self; Ok (pd_name (parent_device r) +:+ " Battery").

Definition device_info (data : gmap string Entity) (self : t)
    : result DeviceInfo :=
  r ← raw_data data self; Ok (device_info_of r).

Definition device_class (self : t) : string := DEVICE_CLASS_BATTERY.

Definition unit_of_measurement (data : gmap string Entity) (self : t)
    : result string :=
  Ok PERCENTAGE.

Definition state (data : gmap string Entity) (self : t) : result pyval :=
  r ← raw_data data self; Ok (Some (pd_battery (parent_device r))).
End FireboardBattery.

Module FireboardSensor.
Record t := new { _unique_id : string }.

Definition raw_data (data : gmap string Entity) (self : t) : result Entity :=
  getitem data (_unique_id self).

Definition name (data : gmap string Entity) (self : t) : result string :=
  r ← raw_data data self;
  channel_label ← entity_channel_label r;
  Ok (pd_name (parent_device r) +:+ " " +:+ channel_label).

Definition unique_id (self : t) : string := _unique_id self.

Definition device_info (data : gmap string Entity) (self : t)
    : result DeviceInfo :=
  r ← raw_data data self; Ok (device_info_of r).

Definition device_class (self : t) : string := DEVICE_CLASS_TEMPERATURE.

Definition unit_of_measurement (data : gmap string Entity) (self : t)
    : result string :=
  r ← raw_data data self; Ok (pd_unit_of_measurement (parent_device r)).

Definition state (data : gmap string Entity) (self : t) : result pyval :=
  r ← raw_data data self; entity_state r.
End FireboardSensor.

(** An element of [fireboardEntities]: an object of one of the two classes;
    a property access dispatches on the class. *)
Inductive View :=
  | Battery (self : FireboardBattery.t)
  | Sensor (self : FireboardSensor.t).

Definition view_unique_id (v : View) : string :=
  match v with
  | Battery b => FireboardBattery.unique_id b
  | Sensor s => FireboardSensor.unique_id s
  end.

Definition view_name (data : gmap string Entity) (v : View) : result string :=
  match v with
  | Battery b => FireboardBattery.name data b
  | Sensor s => FireboardSensor.name data s
  end.

Definition view_state (data : gmap string Entity) (v : View) : result pyval :=
  match v with
  | Battery b => FireboardBattery.state data b
  | Sensor s => FireboardSensor.state data s
  end.

Definition view_device_info (data : gmap string Entity) (v : View)
    : result DeviceInfo :=
  match v with
  | Battery b => FireboardBattery.device_info data b
  | Sensor s => FireboardSensor.device_info data s
  end.

Definition view_unit_of_measurement (data : gmap string Entity) (v : View)
    : result string :=
  match v with
  | Battery b => FireboardBattery.unit_of_measurement data b
  | Sensor s => FireboardSensor.unit_of_measurement data s
  end.

Definition view_device_class (v : View) : string :=
  match v with
  | Battery b => FireboardBattery.device_class b
  | Sensor s => FireboardSensor.device_class s
  end.

(** The choice of class for a key in the loop over [coordinator.data.items()]. *)
Definition wrap (k : string) : View :=
  if str_contains "battery" k then Battery (FireboardBattery.new k)
  else Sensor (FireboardSensor.new k).

Definition fireboardEntities (data : gmap string Entity) : list View :=
  (λ kv, wrap kv.1) <$> map_to_list data.

(** ** The coordinator *)

(** Modelled from the spec: the states of the coordinator (section 4.3);
    [Failed_Auth] is terminal until the account is authenticated again. *)
Inductive CoordinatorState :=
  | Uninitialized
  | Refreshing
  | Ready
  | Failed_Auth.

(** Modelled from the spec: [DataUpdateCoordinator]
    ([homeassistant/helpers/update_coordinator.py]) is not among the
    sources. The spec's coordinator keeps the last published snapshot, runs
    on a timer of fixed interval, and classifies the failure of a refresh:
    an authentication failure moves it to [Failed_Auth] and stops the timer;
    any other failure leaves it [Ready] with the timer on its normal
    schedule; neither touches the snapshot. A success publishes the new
    snapshot and notifies the subscribers. Time is in seconds; [co_timer] is
    the time at which the next timer-driven refresh is due, [co_fetches]
    counts the calls of the update method and [co_notified] the rounds of
    notification. *)
Record Coordinator := {
  co_state : CoordinatorState;
  co_data : gmap string Entity;
  co_update_interval : nat;
  co_timer : option nat;
  co_fetches : nat;
  co_notified : nat;
}.

(** Modelled from the spec: a coordinator before its first refresh, with an
    empty snapshot and no timer running yet. *)
Definition DataUpdateCoordinator (update_interval : nat) : Coordinator := {|
  co_state := Uninitialized;
  co_data := ∅;
  co_update_interval := update_interval;
  co_timer := None;
  co_fetches := 0;
  co_notified := 0;
|}.

(** Modelled from the spec: one refresh at time [now], given what the
    update method returned or raised (section 4.3, failure classification
    and transition rules). The second component is what the caller of the
    refresh sees. [Failed_Auth] is terminal: until the account is
    authenticated again, which is outside this model, a refresh fetches
    nothing, leaves the timer stopped and the snapshot as it is, and tells
    its caller of the standing authentication failure. *)
Definition refresh (now : nat) (update : result (gmap string Entity))
    (c : Coordinator) : Coordinator * result () :=
  match co_state c with
  | Failed_Auth =>
      ({| co_state := Failed_Auth;
          co_data := co_data c;
          co_update_interval := co_update_interval c;
          co_timer := None;
          co_fetches := co_fetches c;
          co_notified := co_notified c |}, Raise ConfigEntryAuthFailed)
  | _ =>
      match update with
      | Ok snapshot =>
          ({| co_state := Ready;
              co_data := snapshot;
              co_update_interval := co_update_interval c;
              co_timer := Some (now + co_update_interval c)%nat;
              co_fetches := S (co_fetches c);
              co_notified := S (co_notified c) |}, Ok ())
      | Raise ConfigEntryAuthFailed =>
          ({| co_state := Failed_Auth;
              co_data := co_data c;
              co_update_interval := co_update_interval c;
              co_timer := None;
              co_fetches := S (co_fetches c);
              co_notified := co_notified c |}, Raise ConfigEntryAuthFailed)
      | Raise e =>
          ({| co_state := Ready;
              co_data := co_data c;
              co_update_interval := co_update_interval c;
              co_timer := Some (now + co_update_interval c)%nat;
              co_fetches := S (co_fetches c);
              co_notified := co_notified c |}, Raise e)
      end
  end.

(** Modelled from the spec: the timer fires at time [now]; a refresh runs
    only when the timer is set and due. *)
Definition tick (now : nat) (update : result (gmap string Entity))
    (c : Coordinator) : Coordinator :=
  match co_timer c with
  | Some due => if decide (due ≤ now)%nat then (refresh now update c).1 else c
  | None => c
  end.

(** Modelled from the spec: [currentSnapshot()]. *)
Definition currentSnapshot (c : Coordinator) : gmap string Entity := co_data c.

(** The coordinator of [async_setup_entry]: update method
    [async_update_data], interval [timedelta(seconds=20)]. *)
Definition coordinator : Coordinator := DataUpdateCoordinator 20.

Definition fboard_refresh (now : nat) (fetched : result (list RawDevice))
    (c : Coordinator) : Coordinator * result () :=
  refresh now (async_update_data fetched) c.

Definition fboard_tick (now : nat) (fetched : result (list RawDevice))
    (c : Coordinator) : Coordinator :=
  tick now (async_update_data fetched) c.

(** [async_setup_entry]: the first refresh, whose failure ends the setup,
    then one view per key of the first snapshot. *)
Definition async_setup_entry (now : nat) (fetched : result (list RawDevice))
    : result (Coordinator * list View) :=
  let '(c, first) := fboard_refresh now fetched coordinator in
  _ ← first; Ok (c, fireboardEntities (co_data c)).

(** ** The Tailscale sensor platform *)

Module Tailscale.
Definition datetime := Z.

(** The fields of the client library's [Device] that the platform reads. *)
Record TailscaleDevice := {
  device_id : string;
  expires : option datetime;
}.

Inductive SensorDeviceClass :=
  | BATTERY
  | TEMPERATURE
  | TIMESTAMP.

Record TailscaleSensorEntityDescription := {
  key : string;
  name : string;
  device_class : option SensorDeviceClass;
  value_fn : TailscaleDevice → option datetime;
}.

Definition SENSORS : list TailscaleSensorEntityDescription := [
  {| key := "expires";
     name := "Expires";
     device_class := Some TIMESTAMP;
     value_fn := λ device, expires device |}
].

(** Modelled from the spec: the base class [TailscaleEntity] (the
    package's [__init__.py]) is not among the sources. As an entity view
    of section 4.4 it is bound to one key of the coordinator's snapshot:
    the id of the device it was made for. *)
Record TailscaleSensorEntity := {
  self_device_id : string;
  entity_description : TailscaleSensorEntityDescription;
}.

(** Modelled from the spec: the constructor call
    [TailscaleSensorEntity(coordinator, device, description)], which keeps
    the device's id as the key of the view. *)
Definition new (device : TailscaleDevice)
    (description : TailscaleSensorEntityDescription)
    : TailscaleSensorEntity :=
  {| self_device_id := device_id device; entity_description := description |}.

(** The entities handed to [async_add_entities]. *)
Definition async_setup_entry (data : gmap string TailscaleDevice)
    : list TailscaleSensorEntity :=
  device ← (map_to_list data).*2;
  description ← SENSORS;
  [new device description].

Definition native_value (data : gmap string TailscaleDevice)
    (self : TailscaleSensorEntity) : result (option datetime) :=
  device ← getitem data (self_device_id self);
  Ok (value_fn (entity_description self) device).
End Tailscale.

(** ** The projection as a sequence of dict assignments *)

(** The assignment [entities[unique_id] = sensor_entity] of one turn of the
    inner loop. *)
Definition channel_write (parent : ParentDevice) (latest : list Reading)
    (c : Channel) : string * Entity :=
  let unique_id := channel_unique_id (pd_hardware_id parent) (channel c) in
  (unique_id, sensor_entity c parent (channel_temp latest (channel c)) unique_id).

(** The assignments of one turn of the outer loop, in order. *)
Definition device_writes (d : RawDevice) : list (string * Entity) :=
  let parent := parent_device_of d in
  let bid := battery_unique_id (hardware_id d) in
  (bid, battery_sensor parent bid)
    :: (channel_write parent (latest_temps d) <$> channels d).

Definition writes (devs : list RawDevice) : list (string * Entity) :=
  devs ≫= device_writes.

(** The keys one device is assigned under: they mention the hardware id and
    the channel indices only. *)
Definition device_keys (hw : string) (indices : list Z) : list string :=
  battery_unique_id hw :: (channel_unique_id hw <$> indices).

Definition keys_of (d : RawDevice) : list string :=
  device_keys (hardware_id d) (channel <$> channels d).

Definition assign {V} (m : gmap string V) (kv : string * V) : gmap string V :=
  <[kv.1 := kv.2]> m.

(** The fetch failures the spec calls transient: the API client's error
    other than the authentication error, a timeout, a network error. *)
Definition transient (e : exn) : bool :=
  match e with
  | FireboardApiError _ | TimeoutError | ClientError => true
  | _ => false
  end.

(** What [async_update_data] raises when the fetch raised the transient
    exception [e]: [UpdateFailed] with its message for the API client's
    error, the exception itself for a timeout or a network error. *)
Definition surfaced (e : exn) : exn :=
  match e with
  | FireboardApiError err => UpdateFailed ("Error communicating with API: " +:+ err)
  | _ => e
  end.

(** Two raw device lists describing the same physical devices: the same
    hardware ids and channel indices, in the same order. *)
Definition same_devices (devs devs' : list RawDevice) : Prop :=
  Forall2 (λ d d', hardware_id d = hardware_id d'
                   ∧ channel <$> channels d = channel <$> channels d')
          devs devs'.

(** No reading of [latest] is for channel [ch]. *)
Definition no_reading (latest : list Reading) (ch : Z) : Prop :=
  ∀ x, x ∈ latest → reading_channel x ≠ ch.

(** [s] occurs in [t]. *)
Definition occurs_in (s t : string) : Prop :=
  ∃ pre post, t = pre +:+ s +:+ post.

(** The device of the spec's example, with the fields the example leaves
    open as parameters. *)
Definition example_device (uuid : string) (id : Z)
    (model title version macNIC : string) (latest : list Reading)
    : RawDevice := {|
  hardware_id := "FB1";
  uuid := uuid;
  id := id;
  model := model;
  title := title;
  version := version;
  macNIC := macNIC;
  last_battery_reading := PyFloat 0.8;
  degreetype := 1;
  channels := [ {| channel := 1; channel_label := "Probe 1" |} ];
  latest_temps := latest;
|}.

Definition example_reading : Reading :=
  {| reading_channel := 1; temp := Some (PyFloat 24.5) |}.

(** A concrete device with three channels, one of them without a reading,
    and a second one on the Fahrenheit scale. *)
Definition smoker : RawDevice := {|
  hardware_id := "FB1";
  uuid := "0a1b";
  id := 7;
  model := "FBX2";
  title := "Smoker";
  version := "1.0.3";
  macNIC := "aa:bb:cc:dd:ee:ff";
  last_battery_reading := PyFloat 0.8;
  degreetype := 1;
  channels := [ {| channel := 1; channel_label := "Probe 1" |};
                {| channel := 2; channel_label := "Probe 2" |};
                {| channel := 12; channel_label := "Ambient" |} ];
  latest_temps := [ {| reading_channel := 2; temp := Some (PyInt 71) |};
                    {| reading_channel := 1; temp := Some (PyFloat 24.5) |};
                    {| reading_channel := 2; temp := Some (PyInt 70) |} ];
|}.

Definition grill : RawDevice := {|
  hardware_id := "battery9";
  uuid := "9f";
  id := 8;
  model := "FBX11";
  title := "Grill";
  version := "2.0";
  macNIC := "11:22:33:44:55:66";
  last_battery_reading := PyInt 1;
  degreetype := 2;
  channels := [ {| channel := 3; channel_label := "Pit" |} ];
  latest_temps := [ {| reading_channel := 3; temp := Some (PyInt 225) |} ];
|}.

(** An access that ends in the [KeyError] of a dict lookup. *)
Definition lookup_fails {A} (r : result A) : Prop :=
  ∃ k, r = Raise (KeyError k).

Definition oven : RawDevice := {|
  hardware_id := "FB2";
  uuid := "77";
  id := 9;
  model := "FBX2D";
  title := "Oven";
  version := "1.1";
  macNIC := "de:ad:be:ef:00:01";
  last_battery_reading := PyFloat 0.5;
  degreetype := 2;
  channels := [ {| channel := 1; channel_label := "Rack" |};
                {| channel := 4; channel_label := "Door" |} ];
  latest_temps := [ {| reading_channel := 4; temp := Some (PyInt 180) |} ];
|}.

(** A run of failed refreshes: each event is the time of the refresh and
    the exception the fetch raised. *)
Definition fboard_failures (events : list (nat * exn)) (c : Coordinator)
    : Coordinator :=
  foldl (λ c ev, (fboard_refresh ev.1 (Raise ev.2) c).1) c events.

(** A Tailscale snapshot of two devices, one of them without expiry. *)
Definition tailnet : gmap string Tailscale.TailscaleDevice :=
  {[ "n1" := {| Tailscale.device_id := "n1";
                Tailscale.expires := Some 1790000000 |};
     "n2" := {| Tailscale.device_id := "n2";
                Tailscale.expires := None |} ]}.

(** The same device fetched again with other readings. *)
Definition with_latest_temps (d : RawDevice) (latest : list Reading)
    : RawDevice := {|
  hardware_id := hardware_id d;
  uuid := uuid d;
  id := id d;
  model := model d;
  title := title d;
  version := version d;
  macNIC := macNIC d;
  last_battery_reading := last_battery_reading d;
  degreetype := degreetype d;
  channels := channels d;
  latest_temps := latest;
|}.

(** ** The integration's entry points ([fboard/__init__.py]) *)

(** [e["unique_id"]], a key of both shapes of record. *)
Definition entity_unique_id (e : Entity) : string :=
  match e with
  | battery_sensor _ u => u
  | sensor_entity _ _ _ u => u
  end.

(** [d.pop(k)] without a default: the value and the dict without the key,
    or [KeyError]. *)
Definition pop {V} (d : gmap string V) (k : string) : result (V * gmap string V) :=
  match d !! k with
  | Some v => Ok (v, delete k d)
  | None => Raise (KeyError k)
  end.

Module fboard.
(** Modelled from the spec: [const.py] of the component is not among the
    sources; the key of the integration's registry in [hass.data], named
    after the component. *)
Definition DOMAIN : string := "fboard".

(** Modelled from the spec: [homeassistant.const.CONF_EMAIL] and
    [CONF_PASSWORD] are not among the sources; the keys of the account
    email and password in the entry's data. *)
Definition CONF_EMAIL : string := "email".
Definition CONF_PASSWORD : string := "password".

(** The API client as the integration builds it, [FireboardAPI(email,
    password)]: the client library's object, known here by the credentials
    it was made with. *)
Record FireboardAPI := {
  api_email : string;
  api_password : string;
}.

(** The fields of a [ConfigEntry] that the integration reads. *)
Record ConfigEntry := {
  entry_id : string;
  data : gmap string string;
}.

(** [async_setup_entry] of the package, on [hass.data] restricted to the
    registries of API clients: the new [hass.data] and the value returned.
    Both lookups in [entry.data] come before the first assignment, so an
    exception leaves [hass.data] as it was. *)
Definition async_setup_entry (hass_data : gmap string (gmap string FireboardAPI))
    (entry : ConfigEntry)
    : result (gmap string (gmap string FireboardAPI) * bool) :=
  email ← getitem (data entry) CONF_EMAIL;
  password ← getitem (data entry) CONF_PASSWORD;
  let hass_data := <[DOMAIN := ∅]> hass_data in
  registry ← getitem hass_data DOMAIN;
  let hass_data :=
    <[DOMAIN := <[entry_id entry := {| api_email := email;
                                         api_password := password |}]> registry]>
      hass_data in
  Ok (hass_data, true).

(** [async_unload_entry], given what [async_unload_platforms] returned. The
    lookup and the [pop] come before any change, so an exception leaves
    [hass.data] as it was. *)
Definition async_unload_entry (hass_data : gmap string (gmap string FireboardAPI))
    (entry : ConfigEntry) (unload_ok : bool)
    : result (gmap string (gmap string FireboardAPI) * bool) :=
  if unload_ok then
    registry ← getitem hass_data DOMAIN;
    popped ← pop registry (entry_id entry);
    Ok (<[DOMAIN := popped.2]> hass_data, unload_ok)
  else Ok (hass_data, unload_ok).

(** [api_client = hass.data[DOMAIN][entry.entry_id]], the first statement of
    the sensor platform's [async_setup_entry]. *)
Definition api_client (hass_data : gmap string (gmap string FireboardAPI))
    (entry : ConfigEntry) : result FireboardAPI :=
  registry ← getitem hass_data DOMAIN;
  getitem registry (entry_id entry).
End fboard.

(** Two accounts set up one after the other. *)
Definition entry_a : fboard.ConfigEntry := {|
  fboard.entry_id := "a1";
  fboard.data := {[ "email" := "ann@example.org"; "password" := "pw-a" ]};
|}.

Definition entry_b : fboard.ConfigEntry := {|
  fboard.entry_id := "b2";
  fboard.data := {[ "email" := "bob@example.org"; "password" := "pw-b" ]};
|}.

(** The number of assignments a device list gives rise to: one per device
    and one per channel. *)
Definition assignments (devs : list RawDevice) : nat :=
  sum_list ((λ d, S (length (channels d))) <$> devs).

Section projection.
Implicit Types (d : RawDevice) (devs : list RawDevice).
Implicit Types (entities : gmap string Entity).

Lemma add_channels_writes parent latest cs entities :
  foldl (add_channel parent latest) entities cs
  = foldl assign entities (channel_write parent latest <$> cs).
Proof.
  revert entities. induction cs as [|c cs IH]; intros entities; [done|].
  simpl. by rewrite IH.
Qed.

Lemma add_device_writes entities d :
  add_device entities d = foldl assign entities (device_writes d).
Proof. unfold add_device, device_writes. by rewrite add_channels_writes. Qed.

Lemma foldl_add_device_writes devs entities :
  foldl add_device entities devs = foldl assign entities (writes devs).
Proof.
  revert entities. induction devs as [|d devs IH]; intros entities; [done|].
  unfold writes. simpl. rewrite foldl_app, IH, add_device_writes. done.
Qed.

Lemma foldl_assign_list_to_map {V} (l : list (string * V)) (m : gmap string V) :
  foldl assign m l = list_to_map (reverse l) ∪ m.
Proof.
  revert m. induction l as [|[k v] l IH]; intros m; simpl.
  - by rewrite (left_id_L ∅ (∪)).
  - rewrite IH, reverse_cons, list_to_map_app. simpl.
    unfold assign. simpl.
    rewrite <-(assoc_L (∪)). f_equal.
    by rewrite insert_empty, <-insert_union_singleton_l.
Qed.

Lemma project_writes devs :
  project devs = list_to_map (reverse (writes devs)).
Proof.
  unfold project.
  by rewrite foldl_add_device_writes, foldl_assign_list_to_map, (right_id_L ∅ (∪)).
Qed.

Lemma writes_keys devs : (writes devs).*1 = devs ≫= keys_of.
Proof.
  unfold writes. induction devs as [|d devs IH]; [done|].
  rewrite !bind_cons, fmap_app, IH. f_equal.
  unfold device_writes, keys_of, device_keys. simpl. f_equal.
  rewrite <-!list_fmap_compose. done.
Qed.

Lemma dom_project devs :
  dom (project devs) = list_to_set (devs ≫= keys_of).
Proof.
  rewrite project_writes, dom_list_to_map_L, fmap_reverse, writes_keys.
  apply set_eq. intros k. rewrite !elem_of_list_to_set, elem_of_reverse. done.
Qed.

(** Every record of the snapshot was assigned by the projection. *)
Lemma project_lookup_written devs k r :
  project devs !! k = Some r → (k, r) ∈ writes devs.
Proof.
  rewrite project_writes. intros Hk.
  apply elem_of_list_to_map_2 in Hk. by rewrite elem_of_reverse in Hk.
Qed.

(** Where no key is assigned twice, every assignment is in the snapshot. *)
Lemma project_lookup_nodup devs k r :
  NoDup (devs ≫= keys_of) → (k, r) ∈ writes devs → project devs !! k = Some r.
Proof.
  intros Hnd Hin. rewrite project_writes.
  apply elem_of_list_to_map_1.
  - by rewrite fmap_reverse, writes_keys, reverse_Permutation.
  - by rewrite elem_of_reverse.
Qed.

Lemma device_writes_in devs d :
  d ∈ devs → ∀ kv, kv ∈ device_writes d → kv ∈ writes devs.
Proof. intros Hd kv Hkv. unfold writes. apply list_elem_of_bind. eauto. Qed.
End projection.

(** ** Strings: substrings and the formatting of channel indices *)

Section strings.
Implicit Types (s t needle hay : string).

Lemma string_app_cons a s t : String a s +:+ t = String a (s +:+ t).
Proof. done. Qed.

Lemma string_app_assoc s t u : (s +:+ t) +:+ u = s +:+ (t +:+ u).
Proof.
  induction s as [|a s IH]; [done|].
  by rewrite !string_app_cons, IH.
Qed.

Lemma prefix_true needle hay :
  String.prefix needle hay = true ↔ ∃ post, hay = needle +:+ post.
Proof.
  revert hay. induction needle as [|a needle IH]; intros hay.
  - split; [intros _; by exists hay|by destruct hay].
  - destruct hay as [|b hay]; simpl.
    + split; [done|]. intros [post Hpost]. by rewrite string_app_cons in Hpost.
    + destruct (Ascii.ascii_dec a b) as [->|Hne].
      * rewrite IH. split; intros [post Hpost]; exists post.
        -- by rewrite string_app_cons, Hpost.
        -- rewrite string_app_cons in Hpost. congruence.
      * split; [done|]. intros [post Hpost].
        rewrite string_app_cons in Hpost. congruence.
Qed.

(** [str_contains] decides the occurrence of [needle] somewhere in [hay]. *)
Lemma str_contains_true needle hay :
  str_contains needle hay = true ↔ ∃ pre post, hay = pre +:+ needle +:+ post.
Proof.
  induction hay as [|b hay IH].
  - cbn [str_contains]. rewrite orb_false_r, prefix_true. split.
    + intros [post ->]. by exists "", post.
    + intros (pre & post & Heq). destruct pre; [by exists post|].
      by rewrite string_app_cons in Heq.
  - cbn [str_contains]. rewrite orb_true_iff, prefix_true, IH. split.
    + intros [[post ->]|(pre & post & ->)].
      * by exists "", post.
      * exists (String b pre), post. by rewrite string_app_cons.
    + intros (pre & post & Heq). destruct pre as [|a pre].
      * left. by exists post.
      * right. exists pre, post. rewrite string_app_cons in Heq. congruence.
Qed.

(** The decimal digits of a positive number start with a digit from 1
    to 9. *)
Lemma pretty_N_go_head (x : N) s :
  (0 < x)%N →
  ∃ k t, (0 < k < 10)%N ∧ pretty_N_go x s = String (pretty_N_char k) t.
Proof.
  revert s. induction (N.lt_wf_0 x) as [x _ IH]; intros s Hx.
  rewrite pretty_N_go_step by done.
  destruct (decide (x `div` 10 = 0)%N) as [Hq|Hq].
  - rewrite Hq, pretty_N_go_0.
    apply N.div_small_iff in Hq; [|done].
    exists (x `mod` 10)%N, s. split; [|done].
    rewrite N.mod_small by done. lia.
  - apply IH; [apply N.div_lt; lia|].
    destruct (x `div` 10)%N; [done|lia].
Qed.

Lemma pretty_pos_head (p : positive) :
  ∃ k t, (0 < k < 10)%N ∧ pretty (Z.pos p) = String (pretty_N_char k) t.
Proof.
  unfold pretty, pretty_Z, pretty, pretty_positive, pretty, pretty_N.
  rewrite decide_False by done. apply pretty_N_go_head. lia.
Qed.

Lemma pretty_N_char_nonzero (k : N) c :
  (0 < k < 10)%N → c ∈ ["0"; "-"; "b"]%char → pretty_N_char k ≠ c.
Proof.
  intros Hk Hc.
  assert (k = 1 ∨ k = 2 ∨ k = 3 ∨ k = 4 ∨ k = 5 ∨ k = 6
          ∨ k = 7 ∨ k = 8 ∨ k = 9)%N as Hcases by lia.
  rewrite !elem_of_cons, elem_of_nil in Hc.
  destruct Hc as [->|[->|[->|[]]]];
    repeat (destruct Hcases as [->|Hcases]; [done|]); by subst.
Qed.

Lemma pretty_neg_head (p : positive) :
  pretty (Z.neg p) = String "-" (pretty p).
Proof. done. Qed.

(** The first character of a formatted index: a digit, or the sign. *)
Lemma format_02_head (n : Z) :
  ∃ c t, format_02 n = String c t ∧ c ≠ "b"%char.
Proof.
  unfold format_02. case_bool_decide as Hn.
  - exists "0"%char, (pretty n). done.
  - destruct n as [|p|p]; [lia| |].
    + destruct (pretty_pos_head p) as (k & t & Hk & ->).
      exists (pretty_N_char k), t. split; [done|].
      apply pretty_N_char_nonzero; [done|by repeat constructor].
    + rewrite pretty_neg_head. by eexists _, _.
Qed.

Lemma format_02_unpadded_head (n : Z) t :
  ¬ (0 ≤ n < 10) → pretty n ≠ String "0" t.
Proof.
  intros Hn. destruct n as [|p|p]; [lia| |].
  - destruct (pretty_pos_head p) as (k & t' & Hk & ->).
    intros [= Hc _]. revert Hc. apply pretty_N_char_nonzero; [done|by repeat constructor].
  - by rewrite pretty_neg_head.
Qed.

Global Instance format_02_inj : Inj (=) (=) format_02.
Proof.
  intros n m. unfold format_02.
  case_bool_decide as Hn; case_bool_decide as Hm; intros Heq.
  - apply (inj (String.app "0")) in Heq. by apply (inj pretty).
  - symmetry in Heq. by apply format_02_unpadded_head in Heq.
  - by apply format_02_unpadded_head in Heq.
  - by apply (inj pretty).
Qed.

Lemma format_02_two_digits (n : Z) :
  0 ≤ n ≤ 99 → format_02 n = two_digits n.
Proof.
  intros Hn.
  assert (Forall (λ k, format_02 k = two_digits k) (seqZ 0 100)) as Hall.
  { apply (bool_decide_unpack _). by vm_compute. }
  rewrite Forall_forall in Hall. apply Hall. apply elem_of_seqZ. lia.
Qed.

Global Instance channel_unique_id_inj hw : Inj (=) (=) (channel_unique_id hw).
Proof.
  intros n m Heq. unfold channel_unique_id in Heq.
  apply (inj (String.app hw)), (inj (String.app "_")) in Heq.
  by apply (inj format_02).
Qed.

Lemma battery_channel_unique_id_ne hw n :
  battery_unique_id hw ≠ channel_unique_id hw n.
Proof.
  intros Heq. unfold battery_unique_id, channel_unique_id in Heq.
  apply (inj (String.app hw)) in Heq.
  change "_battery" with ("_" +:+ "battery") in Heq.
  apply (inj (String.app "_")) in Heq.
  destruct (format_02_head n) as (c & t & Hf & Hc).
  rewrite Hf in Heq. by injection Heq as <- _.
Qed.

Lemma keys_of_NoDup hw (indices : list Z) :
  NoDup indices → NoDup (device_keys hw indices).
Proof.
  intros Hnd. unfold device_keys. apply NoDup_cons. split.
  - intros (n & Heq & _)%list_elem_of_fmap.
    by destruct (battery_channel_unique_id_ne hw n).
  - by apply (NoDup_fmap_2 _).
Qed.
End strings.

(** ** Records of the snapshot *)

Section snapshot.
Implicit Types (d : RawDevice) (devs : list RawDevice) (c : Channel).

Lemma channel_write_in d c :
  c ∈ channels d →
  channel_write (parent_device_of d) (latest_temps d) c ∈ device_writes d.
Proof.
  intros Hc. unfold device_writes. apply list_elem_of_further.
  apply list_elem_of_fmap. eauto.
Qed.

Lemma battery_write_in d :
  (battery_unique_id (hardware_id d),
   battery_sensor (parent_device_of d) (battery_unique_id (hardware_id d)))
  ∈ device_writes d.
Proof. unfold device_writes. apply list_elem_of_here. Qed.

Lemma project_lookup_channel devs d c :
  NoDup (devs ≫= keys_of) → d ∈ devs → c ∈ channels d →
  project devs !! channel_unique_id (hardware_id d) (channel c)
  = Some (sensor_entity c (parent_device_of d)
            (channel_temp (latest_temps d) (channel c))
            (channel_unique_id (hardware_id d) (channel c))).
Proof.
  intros Hnd Hd Hc. apply project_lookup_nodup; [done|].
  apply (device_writes_in devs d Hd). by apply (channel_write_in d c).
Qed.

Lemma project_lookup_battery devs d :
  NoDup (devs ≫= keys_of) → d ∈ devs →
  project devs !! battery_unique_id (hardware_id d)
  = Some (battery_sensor (parent_device_of d)
            (battery_unique_id (hardware_id d))).
Proof.
  intros Hnd Hd. apply project_lookup_nodup; [done|].
  apply (device_writes_in devs d Hd), battery_write_in.
Qed.

Lemma channel_key_in_dom devs d c :
  d ∈ devs → c ∈ channels d →
  channel_unique_id (hardware_id d) (channel c) ∈ dom (project devs).
Proof.
  intros Hd Hc. rewrite dom_project, elem_of_list_to_set, list_elem_of_bind.
  exists d. split; [|done]. unfold keys_of, device_keys.
  apply list_elem_of_further. rewrite <-list_fmap_compose.
  apply list_elem_of_fmap. by exists c.
Qed.

Lemma battery_key_in_dom devs d :
  d ∈ devs → battery_unique_id (hardware_id d) ∈ dom (project devs).
Proof.
  intros Hd. rewrite dom_project, elem_of_list_to_set, list_elem_of_bind.
  exists d. split; [|done]. apply list_elem_of_here.
Qed.

Lemma same_devices_keys devs devs' :
  same_devices devs devs' → devs ≫= keys_of = devs' ≫= keys_of.
Proof.
  induction 1 as [|d d' devs devs' [Hhw Hch] _ IH]; [done|].
  rewrite !bind_cons, IH. unfold keys_of. by rewrite Hhw, Hch.
Qed.

Lemma channel_temp_no_reading latest ch :
  no_reading latest ch → channel_temp latest ch = None.
Proof.
  induction latest as [|x latest IH]; intros Hno; [done|]. simpl.
  rewrite bool_decide_eq_false_2.
  - apply IH. intros y Hy. apply Hno. by apply list_elem_of_further.
  - apply Hno, list_elem_of_here.
Qed.

Lemma channel_temp_first pre x post ch :
  no_reading pre ch → reading_channel x = ch →
  channel_temp (pre ++ x :: post) ch = temp x.
Proof.
  intros Hpre Hx. induction pre as [|y pre IH]; simpl.
  - by rewrite bool_decide_eq_true_2.
  - rewrite bool_decide_eq_false_2.
    + apply IH. intros z Hz. apply Hpre. by apply list_elem_of_further.
    + apply Hpre, list_elem_of_here.
Qed.

Lemma channel_temp_only latest x ch :
  x ∈ latest → reading_channel x = ch →
  (∀ y, y ∈ latest → reading_channel y = ch → y = x) →
  channel_temp latest ch = temp x.
Proof.
  intros Hx Hch Honly. induction latest as [|y latest IH]; [by inversion Hx|].
  simpl. case_bool_decide as Hy.
  - by rewrite (Honly y (list_elem_of_here _ _) Hy).
  - apply IH.
    + apply elem_of_cons in Hx as [->|Hx]; [done|done].
    + intros z Hz. apply Honly. by apply list_elem_of_further.
Qed.

Lemma sensor_state_lookup (data : gmap string Entity) k cd p st u :
  data !! k = Some (sensor_entity cd p st u) →
  FireboardSensor.state data (FireboardSensor.new k) = Ok st.
Proof. intros Hk. unfold FireboardSensor.state, FireboardSensor.raw_data, getitem. simpl. by rewrite Hk. Qed.

Lemma sensor_unit_lookup (data : gmap string Entity) k r :
  data !! k = Some r →
  FireboardSensor.unit_of_measurement data (FireboardSensor.new k)
  = Ok (pd_unit_of_measurement (parent_device r)).
Proof. intros Hk. unfold FireboardSensor.unit_of_measurement, FireboardSensor.raw_data, getitem. simpl. by rewrite Hk. Qed.

Lemma battery_state_lookup (data : gmap string Entity) k r :
  data !! k = Some r →
  FireboardBattery.state data (FireboardBattery.new k)
  = Ok (Some (pd_battery (parent_device r))).
Proof. intros Hk. unfold FireboardBattery.state, FireboardBattery.raw_data, getitem. simpl. by rewrite Hk. Qed.
End snapshot.

(** ** Views made at setup *)

Section setup.
Implicit Types (k : string) (data : gmap string Entity).

Lemma wrap_unique_id k : view_unique_id (wrap k) = k.
Proof. unfold wrap. by destruct (str_contains "battery" k). Qed.

Lemma wrap_battery k :
  wrap k = Battery (FireboardBattery.new k) ↔ occurs_in "battery" k.
Proof.
  unfold occurs_in. rewrite <-str_contains_true. unfold wrap.
  by destruct (str_contains "battery" k).
Qed.

Lemma wrap_sensor k :
  wrap k = Sensor (FireboardSensor.new k) ↔ ¬ occurs_in "battery" k.
Proof.
  unfold occurs_in. rewrite <-str_contains_true. unfold wrap.
  destruct (str_contains "battery" k); split; done.
Qed.

Lemma elem_of_fireboardEntities data v :
  v ∈ fireboardEntities data ↔ ∃ k, k ∈ dom data ∧ v = wrap k.
Proof.
  unfold fireboardEntities. rewrite list_elem_of_fmap. split.
  - intros ([k r] & -> & Hkr). exists k. split; [|done].
    apply elem_of_map_to_list in Hkr. by apply elem_of_dom_2 in Hkr.
  - intros (k & [r Hk]%elem_of_dom & ->). exists (k, r). split; [done|].
    by apply elem_of_map_to_list.
Qed.

Lemma occurs_in_channel_unique_id hw n :
  occurs_in "battery" hw → occurs_in "battery" (channel_unique_id hw n).
Proof.
  intros (pre & post & ->). exists pre, (post +:+ "_" +:+ format_02 n).
  unfold channel_unique_id. by rewrite !string_app_assoc.
Qed.
End setup.

(** ** Runs of failed refreshes *)

(** A failed refresh never touches the snapshot or the interval. *)
Lemma refresh_failure_keeps (now : nat) (e : exn) (c : Coordinator) :
  currentSnapshot (refresh now (Raise e) c).1 = currentSnapshot c
  ∧ co_update_interval (refresh now (Raise e) c).1 = co_update_interval c.
Proof. unfold refresh. by destruct (co_state c), e. Qed.

(** [Failed_Auth] is terminal for refreshes: whatever the update method
    would give, nothing is fetched and the state, the snapshot and the
    stopped timer stay. *)
Lemma refresh_Failed_Auth (now : nat) (update : result (gmap string Entity))
    (c : Coordinator) :
  co_state c = Failed_Auth →
  co_state (refresh now update c).1 = Failed_Auth
  ∧ co_timer (refresh now update c).1 = None
  ∧ currentSnapshot (refresh now update c).1 = currentSnapshot c
  ∧ co_fetches (refresh now update c).1 = co_fetches c
  ∧ (refresh now update c).2 = Raise ConfigEntryAuthFailed.
Proof. intros Hstate. unfold refresh. by rewrite Hstate. Qed.

(** A transient failure met outside [Failed_Auth]: the coordinator is
    [Ready] and the timer set one interval ahead. *)
Lemma refresh_transient (now : nat) (e : exn) (c : Coordinator) :
  transient e = true → co_state c ≠ Failed_Auth →
  refresh now (async_update_data (Raise e)) c
  = ({| co_state := Ready;
        co_data := co_data c;
        co_update_interval := co_update_interval c;
        co_timer := Some (now + co_update_interval c)%nat;
        co_fetches := S (co_fetches c);
        co_notified := co_notified c |}, Raise (surfaced e)).
Proof.
  intros He Hstate. unfold refresh.
  destruct (co_state c); try done; by destruct e.
Qed.

(** A run of transient failures leaves the snapshot and the interval as
    they were. *)
Lemma fboard_failures_keep (events : list (nat * exn)) (c : Coordinator) :
  Forall (λ ev, transient ev.2 = true) events →
  currentSnapshot (fboard_failures events c) = currentSnapshot c
  ∧ co_update_interval (fboard_failures events c) = co_update_interval c.
Proof.
  unfold fboard_failures. intros Hall. revert c.
  induction Hall as [|[t e] events He _ IH]; intros c; [done|].
  simpl. destruct (IH (fboard_refresh t (Raise e) c).1) as [-> ->].
  unfold fboard_refresh.
  destruct (async_update_data (Raise e)) as [snap|e'] eqn:Hupdate.
  - by destruct e.
  - apply refresh_failure_keeps.
Qed.

(** A run of transient failures never ends in [Failed_Auth]. *)
Lemma fboard_failures_state (events : list (nat * exn)) (c : Coordinator) :
  Forall (λ ev, transient ev.2 = true) events →
  co_state c ≠ Failed_Auth →
  co_state (fboard_failures events c) ≠ Failed_Auth.
Proof.
  unfold fboard_failures. intros Hall. revert c.
  induction Hall as [|[t e] events He _ IH]; intros c Hstate; [done|].
  simpl. apply IH. unfold fboard_refresh.
  by rewrite (refresh_transient t e c He Hstate).
Qed.

(** ** The Tailscale entities *)

Section tailscale.
Import Tailscale.
Implicit Types (data : gmap string TailscaleDevice).

Lemma tailscale_entities data :
  Tailscale.async_setup_entry data
  = (λ kd, {| self_device_id := device_id kd.2;
              entity_description :=
                {| key := "expires"; name := "Expires";
                   device_class := Some TIMESTAMP;
                   value_fn := λ device, expires device |} |})
    <$> map_to_list data.
Proof.
  unfold Tailscale.async_setup_entry.
  induction (map_to_list data) as [|[k d] l IH]; [done|].
  rewrite fmap_cons, bind_cons, IH. done.
Qed.

Lemma tailscale_entity_ids data :
  (∀ k d, data !! k = Some d → device_id d = k) →
  self_device_id <$> Tailscale.async_setup_entry data = (map_to_list data).*1.
Proof.
  intros Hkeyed. rewrite tailscale_entities, <-list_fmap_compose.
  apply Forall_fmap_ext_1, Forall_forall. intros [k d] Hkd. simpl.
  apply Hkeyed. by apply elem_of_map_to_list.
Qed.
End tailscale.

(** ** Key stability *)

(** C1: the key set of the projected snapshot is fixed by the hardware id
    and the channel indices of each device, whatever [latest_temps] holds:
    two fetches of device lists with the same hardware ids and channel
    indices both succeed, with snapshots of the same keys. A channel without
    a matching reading keeps its key; the record assigned for it has state
    [None], and it is the record read under that key when no key is
    assigned twice. *)
Theorem C1_key_stability (devs devs' : list RawDevice) :
  same_devices devs devs' →
  (async_update_data (Ok devs) = Ok (project devs)
   ∧ async_update_data (Ok devs') = Ok (project devs')
   ∧ dom (project devs) = dom (project devs'))
  ∧ ∀ d c, d ∈ devs → c ∈ channels d →
      no_reading (latest_temps d) (channel c) →
      let k := channel_unique_id (hardware_id d) (channel c) in
      k ∈ dom (project devs) ∧ k ∈ dom (project devs')
      ∧ channel_write (parent_device_of d) (latest_temps d) c
        = (k, sensor_entity c (parent_device_of d) None k)
      ∧ (NoDup (devs ≫= keys_of) →
         project devs !! k = Some (sensor_entity c (parent_device_of d) None k)
         ∧ FireboardSensor.state (project devs) (FireboardSensor.new k) = Ok None).
Proof.
  intros Hsame.
  assert (dom (project devs) = dom (project devs')) as Hdom.
  { by rewrite !dom_project, (same_devices_keys devs devs'). }
  split; [done|]. intros d c Hd Hc Hno k.
  assert (k ∈ dom (project devs)) as Hk by by apply channel_key_in_dom.
  split; [done|]. split; [by rewrite <-Hdom|].
  pose proof (channel_temp_no_reading _ _ Hno) as Hnone.
  split.
  - unfold channel_write. simpl. by rewrite Hnone.
  - intros Hnd.
    pose proof (project_lookup_channel devs d c Hnd Hd Hc) as Hlook.
    rewrite Hnone in Hlook. split; [done|].
    by apply (sensor_state_lookup _ _ _ _ _ _ Hlook).
Qed.

(** A device fetched with its readings, and again with all readings gone. *)
Lemma C1_key_stability_witness :
  dom (project [smoker]) = dom (project [with_latest_temps smoker []])
  ∧ project [smoker] !! "FB1_12"
    = Some (sensor_entity {| channel := 12; channel_label := "Ambient" |}
              (parent_device_of smoker) None "FB1_12").
Proof.
  destruct (C1_key_stability [smoker] [with_latest_temps smoker []])
    as [(_ & _ & Hdom) Hgap].
  { repeat constructor. }
  split; [exact Hdom|].
  destruct (Hgap smoker {| channel := 12; channel_label := "Ambient" |})
    as (_ & _ & _ & Hlook).
  - apply list_elem_of_here.
  - simpl. do 2 apply list_elem_of_further. apply list_elem_of_here.
  - intros x Hx. simpl in Hx.
    repeat (apply elem_of_cons in Hx as [->|Hx]; [done|]).
    by apply elem_of_nil in Hx.
  - apply Hlook. apply (bool_decide_unpack _). by vm_compute.
Defined.

(** ** The worked example *)

(** C2: the device with hardware id FB1, degree type 1, battery fraction
    0.8, one channel (index 1, label Probe 1) and one reading (channel 1,
    24.5) projects to exactly two records. Under [FB1_battery] the battery
    view reads 80 percent; under [FB1_01] the sensor view reads 24.5 degrees
    Celsius and its name contains the label. Projected again with no
    reading, [FB1_01] is still a key and its state is [None]. The fields the
    example leaves open are arbitrary. *)
Theorem C2_example (uuid : string) (id : Z) (model title version mac : string) :
  let dev := example_device uuid id model title version mac in
  let snap := project [dev [example_reading]] in
  let battery := FireboardBattery.new "FB1_battery" in
  let probe := FireboardSensor.new "FB1_01" in
  dom snap = {[ "FB1_battery"; "FB1_01" ]}
  ∧ size snap = 2%nat
  ∧ wrap "FB1_battery" = Battery battery
  ∧ wrap "FB1_01" = Sensor probe
  ∧ FireboardBattery.state snap battery = Ok (Some (PyFloat 80))
  ∧ FireboardBattery.unit_of_measurement snap battery = Ok "%"
  ∧ FireboardSensor.state snap probe = Ok (Some (PyFloat 24.5))
  ∧ FireboardSensor.unit_of_measurement snap probe = Ok "°C"
  ∧ FireboardSensor.name snap probe = Ok (title +:+ " " +:+ "Probe 1")
  ∧ occurs_in "Probe 1" (title +:+ " " +:+ "Probe 1")
  ∧ dom (project [dev []]) = dom snap
  ∧ FireboardSensor.state (project [dev []]) probe = Ok None.
Proof.
  intros dev snap battery probe.
  repeat split; try reflexivity.
  exists (title +:+ " "), "".
  rewrite string_app_assoc. done.
Qed.

(** ** Keys *)

(** C5: one device projects to a battery record under the hardware id
    followed by [_battery] and to one record per channel under the hardware
    id, an underscore and the channel index padded with a zero to two
    digits; index 1 gives the suffix [_01]. These are all the keys. Where
    the channel indices are pairwise distinct these records are all
    distinct: the snapshot has one record more than the device has
    channels, and each channel's record is the one kept under its key. *)
Theorem C5_keys (d : RawDevice) :
  let hw := hardware_id d in
  let snap := project [d] in
  dom snap
  = {[ hw +:+ "_battery" ]}
    ∪ list_to_set ((λ c, hw +:+ "_" +:+ format_02 (channel c)) <$> channels d)
  ∧ (∀ n, 0 ≤ n ≤ 99 → format_02 n = two_digits n)
  ∧ format_02 1 = "01"
  ∧ (NoDup (channel <$> channels d) →
     size snap = S (length (channels d))
     ∧ snap !! (hw +:+ "_battery")
       = Some (battery_sensor (parent_device_of d) (hw +:+ "_battery"))
     ∧ ∀ c, c ∈ channels d →
         snap !! (hw +:+ "_" +:+ format_02 (channel c))
         = Some (sensor_entity c (parent_device_of d)
                   (channel_temp (latest_temps d) (channel c))
                   (hw +:+ "_" +:+ format_02 (channel c)))).
Proof.
  intros hw snap.
  assert ([d] ≫= keys_of = keys_of d) as Hkeys.
  { apply bind_singleton. }
  split; [|split; [|split]].
  - unfold snap. rewrite dom_project, Hkeys.
    unfold keys_of, device_keys. rewrite list_to_set_cons.
    by rewrite <-list_fmap_compose.
  - apply format_02_two_digits.
  - done.
  - intros Hnd.
    assert (NoDup ([d] ≫= keys_of)) as Hnd'.
    { rewrite Hkeys. by apply keys_of_NoDup. }
    assert (d ∈ [d]) as Hd by apply list_elem_of_here.
    split; [|split].
    + unfold snap. rewrite <-size_dom, dom_project, size_list_to_set by done.
      rewrite Hkeys. unfold keys_of, device_keys. simpl.
      by rewrite !length_fmap.
    + by apply (project_lookup_battery [d] d).
    + intros c Hc. by apply (project_lookup_channel [d] d c).
Qed.

(** The device with channels 1, 2 and 12. *)
Lemma C5_keys_witness :
  size (project [smoker]) = 4%nat
  ∧ dom (project [smoker])
    = {[ "FB1_battery"; "FB1_01"; "FB1_02"; "FB1_12" ]}.
Proof.
  destruct (C5_keys smoker) as (Hdom & _ & _ & Hdistinct).
  destruct Hdistinct as (Hsize & _ & _).
  { apply (bool_decide_unpack _). by vm_compute. }
  split; [exact Hsize|].
  rewrite Hdom. apply (bool_decide_unpack _). by vm_compute.
Defined.

(** ** Units and states of the channel sensors *)

(** C6: the unit of a device is fixed once by its degree type, Fahrenheit
    for 2 and Celsius for anything else, and kept in the [parent_device]
    that all records of the device share. In a snapshot where no key is
    assigned twice, the record of every channel of the device carries that
    unit, the sensor view of the channel reports it, and so does every
    sensor view that setup makes for the channel; all channels of the
    device report the same unit. *)
Theorem C6_unit (devs : list RawDevice) (d : RawDevice) (c : Channel) :
  NoDup (devs ≫= keys_of) → d ∈ devs → c ∈ channels d →
  let unit := if bool_decide (degreetype d = 2) then TEMP_FAHRENHEIT
              else TEMP_CELSIUS in
  let k := channel_unique_id (hardware_id d) (channel c) in
  let snap := project devs in
  (∃ r, snap !! k = Some r
        ∧ parent_device r = parent_device_of d
        ∧ pd_unit_of_measurement (parent_device r) = unit)
  ∧ FireboardSensor.unit_of_measurement snap (FireboardSensor.new k) = Ok unit
  ∧ (∀ v, v ∈ fireboardEntities snap → v = Sensor (FireboardSensor.new k) →
       view_unit_of_measurement snap v = Ok unit)
  ∧ (str_contains "battery" k = false →
     Sensor (FireboardSensor.new k) ∈ fireboardEntities snap)
  ∧ (∀ c', c' ∈ channels d →
       FireboardSensor.unit_of_measurement snap
         (FireboardSensor.new (channel_unique_id (hardware_id d) (channel c')))
       = Ok unit)
  ∧ TEMP_FAHRENHEIT ≠ TEMP_CELSIUS.
Proof.
  intros Hnd Hd Hc unit k snap.
  assert (∀ c', c' ∈ channels d →
    FireboardSensor.unit_of_measurement snap
      (FireboardSensor.new (channel_unique_id (hardware_id d) (channel c')))
    = Ok unit) as Hall.
  { intros c' Hc'. unfold snap.
    by rewrite (sensor_unit_lookup _ _ _ (project_lookup_channel devs d c' Hnd Hd Hc')). }
  split; [|split; [|split; [|split; [|split]]]].
  - eexists. split; [by apply project_lookup_channel|done].
  - by apply Hall.
  - intros v _ ->. by apply Hall.
  - intros Hplain. apply elem_of_fireboardEntities. exists k. split.
    + by apply channel_key_in_dom.
    + unfold wrap. by rewrite Hplain.
  - done.
  - done.
Qed.

(** A Celsius device and a Fahrenheit device side by side. *)
Lemma C6_unit_witness :
  FireboardSensor.unit_of_measurement (project [smoker; oven])
    (FireboardSensor.new "FB2_04") = Ok TEMP_FAHRENHEIT
  ∧ Sensor (FireboardSensor.new "FB2_04") ∈ fireboardEntities (project [smoker; oven]).
Proof.
  destruct (C6_unit [smoker; oven] oven {| channel := 4; channel_label := "Door" |})
    as (_ & Hunit & _ & Hmade & _).
  - apply (bool_decide_unpack _). by vm_compute.
  - apply list_elem_of_further, list_elem_of_here.
  - apply list_elem_of_further, list_elem_of_here.
  - split; [exact Hunit|]. by apply Hmade.
Defined.

(** C7: in a snapshot where no key is assigned twice, the state of a
    channel's sensor is what the search of the device's [latest_temps] for
    the channel index gives: [None] when no reading matches; otherwise the
    temperature of the matching reading, which is the first one in list
    order when several match, and the only candidate when the list holds
    one reading per channel. *)
Theorem C7_channel_state (devs : list RawDevice) (d : RawDevice) (c : Channel) :
  NoDup (devs ≫= keys_of) → d ∈ devs → c ∈ channels d →
  let k := channel_unique_id (hardware_id d) (channel c) in
  let latest := latest_temps d in
  ∃ st,
    project devs !! k = Some (sensor_entity c (parent_device_of d) st k)
    ∧ FireboardSensor.state (project devs) (FireboardSensor.new k) = Ok st
    ∧ (no_reading latest (channel c) → st = None)
    ∧ (∀ pre x post, latest = pre ++ x :: post →
         no_reading pre (channel c) → reading_channel x = channel c →
         st = temp x)
    ∧ (∀ x, x ∈ latest → reading_channel x = channel c →
         (∀ y, y ∈ latest → reading_channel y = channel c → y = x) →
         st = temp x).
Proof.
  intros Hnd Hd Hc k latest.
  exists (channel_temp latest (channel c)).
  pose proof (project_lookup_channel devs d c Hnd Hd Hc) as Hlook.
  split; [done|]. split; [by apply (sensor_state_lookup _ _ _ _ _ _ Hlook)|].
  split; [apply channel_temp_no_reading|]. split.
  - intros pre x post -> Hpre Hx. by apply channel_temp_first.
  - intros x Hx Hch Honly. by apply channel_temp_only.
Qed.

(** Channel 2 has two readings, 71 before 70. *)
Lemma C7_channel_state_witness :
  FireboardSensor.state (project [smoker; grill]) (FireboardSensor.new "FB1_02")
  = Ok (Some (PyInt 71)).
Proof.
  destruct (C7_channel_state [smoker; grill] smoker
              {| channel := 2; channel_label := "Probe 2" |})
    as (st & _ & Hstate & _ & Hfirst & _).
  - apply (bool_decide_unpack _). by vm_compute.
  - apply list_elem_of_here.
  - apply list_elem_of_further, list_elem_of_here.
  - assert (st = Some (PyInt 71)) as <-; [|exact Hstate].
    apply (Hfirst [] {| reading_channel := 2; temp := Some (PyInt 71) |}
             [ {| reading_channel := 1; temp := Some (PyFloat 24.5) |};
               {| reading_channel := 2; temp := Some (PyInt 70) |} ]).
    + reflexivity.
    + intros x Hx. by apply elem_of_nil in Hx.
    + reflexivity.
Defined.

(** ** Views bound to a missing key *)

(** C8, as stated, fails: a battery view reports its unit without reading
    the snapshot, so the access succeeds although the key is absent. *)
Lemma C8_counterexample :
  ¬ (∀ (data : gmap string Entity) (v : View),
       data !! view_unique_id v = None →
       lookup_fails (view_name data v)
       ∧ lookup_fails (view_state data v)
       ∧ lookup_fails (view_device_info data v)
       ∧ lookup_fails (view_unit_of_measurement data v)).
Proof.
  intros Hclaim.
  destruct (Hclaim (project [smoker]) (Battery (FireboardBattery.new "FB9_battery")))
    as (_ & _ & _ & [k Hk]).
  - reflexivity.
  - discriminate Hk.
Qed.

(** C8, amended: for a view bound to a key that the snapshot lacks, every
    property that reads the view's record fails with the [KeyError] of that
    key: name, state and device info of both classes, and the unit of a
    sensor view. The unit of a battery view is the constant percent sign. *)
Theorem C8_lookup_failure (data : gmap string Entity) (v : View) :
  data !! view_unique_id v = None →
  let missing := KeyError (view_unique_id v) in
  view_name data v = Raise missing
  ∧ view_state data v = Raise missing
  ∧ view_device_info data v = Raise missing
  ∧ match v with
    | Sensor _ => view_unit_of_measurement data v = Raise missing
    | Battery _ => view_unit_of_measurement data v = Ok PERCENTAGE
    end.
Proof.
  intros Hnone missing. destruct v as [[k]|[k]]; simpl in *.
  - unfold FireboardBattery.name, FireboardBattery.state,
      FireboardBattery.device_info, FireboardBattery.unit_of_measurement,
      FireboardBattery.raw_data, getitem. simpl. by rewrite Hnone.
  - unfold FireboardSensor.name, FireboardSensor.state,
      FireboardSensor.device_info, FireboardSensor.unit_of_measurement,
      FireboardSensor.raw_data, getitem. simpl. by rewrite Hnone.
Qed.

(** A sensor view for a channel the device does not have. *)
Lemma C8_lookup_failure_witness :
  view_state (project [smoker]) (Sensor (FireboardSensor.new "FB1_03"))
  = Raise (KeyError "FB1_03").
Proof.
  destruct (C8_lookup_failure (project [smoker])
              (Sensor (FireboardSensor.new "FB1_03"))) as (_ & Hstate & _).
  - reflexivity.
  - exact Hstate.
Defined.

(** ** The view class chosen at setup *)

(** C10: at setup every key of the first snapshot gets a battery view
    exactly when [battery] occurs somewhere in the key, and a sensor view
    otherwise. So for a device whose hardware id contains [battery], each
    channel key gets a battery view and no sensor view: its class is
    battery, its unit percent, and its state the battery percentage of the
    device (the battery fraction times 100) where no key is assigned
    twice. *)
Theorem C10_battery_substring :
  (∀ k, wrap k = Battery (FireboardBattery.new k) ↔ occurs_in "battery" k)
  ∧ (∀ k, wrap k = Sensor (FireboardSensor.new k) ↔ ¬ occurs_in "battery" k)
  ∧ (∀ now devs, ∃ c,
       async_setup_entry now (Ok devs) = Ok (c, fireboardEntities (project devs))
       ∧ co_data c = project devs)
  ∧ (∀ data v, v ∈ fireboardEntities data ↔ ∃ k, k ∈ dom data ∧ v = wrap k)
  ∧ ∀ devs d c, d ∈ devs → c ∈ channels d →
      occurs_in "battery" (hardware_id d) →
      let k := channel_unique_id (hardware_id d) (channel c) in
      let snap := project devs in
      Battery (FireboardBattery.new k) ∈ fireboardEntities snap
      ∧ (Sensor (FireboardSensor.new k) ∉ fireboardEntities snap)
      ∧ view_device_class (wrap k) = DEVICE_CLASS_BATTERY
      ∧ view_unit_of_measurement snap (wrap k) = Ok PERCENTAGE
      ∧ (NoDup (devs ≫= keys_of) →
         view_state snap (wrap k)
         = Ok (Some (times_100 (last_battery_reading d)))).
Proof.
  split; [apply wrap_battery|]. split; [apply wrap_sensor|].
  split; [by eexists|]. split; [apply elem_of_fireboardEntities|].
  intros devs d c Hd Hc Hhw k snap.
  assert (wrap k = Battery (FireboardBattery.new k)) as Hwrap.
  { by apply wrap_battery, occurs_in_channel_unique_id. }
  split; [|split; [|split; [|split]]].
  - apply elem_of_fireboardEntities. exists k. split; [|done].
    by apply channel_key_in_dom.
  - intros (k' & _ & Hk')%elem_of_fireboardEntities.
    assert (k' = k) as ->.
    { by rewrite <-(wrap_unique_id k'), <-Hk'. }
    by rewrite Hwrap in Hk'.
  - by rewrite Hwrap.
  - by rewrite Hwrap.
  - intros Hnd. rewrite Hwrap. unfold snap, k. simpl.
    by rewrite (battery_state_lookup _ _ _ (project_lookup_channel devs d c Hnd Hd Hc)).
Qed.

(** The device with hardware id [battery9]: its channel 3 gets a battery
    view, which reads 100 instead of the 225 degrees of the probe. *)
Lemma C10_battery_substring_witness :
  Battery (FireboardBattery.new "battery9_03")
    ∈ fireboardEntities (project [smoker; grill])
  ∧ view_state (project [smoker; grill]) (wrap "battery9_03")
    = Ok (Some (PyInt 100)).
Proof.
  destruct C10_battery_substring as (_ & _ & _ & _ & Hchannels).
  destruct (Hchannels [smoker; grill] grill {| channel := 3; channel_label := "Pit" |})
    as (Hin & _ & _ & _ & Hstate).
  - apply list_elem_of_further, list_elem_of_here.
  - apply list_elem_of_here.
  - by exists "", "9".
  - split; [exact Hin|]. apply Hstate.
    apply (bool_decide_unpack _). by vm_compute.
Defined.

(** ** Failed refreshes *)

(** C3: when the fetch fails with the API's authentication error, the
    update method raises [ConfigEntryAuthFailed]; the refresh hands that
    failure to its caller, the coordinator is in [Failed_Auth] with its
    timer stopped, the published snapshot is the one from before, and no
    later tick of the timer fetches or changes anything. *)
Theorem C3_auth_failure (c : Coordinator) (now : nat) :
  async_update_data (Raise FireboardApiAuthError) = Raise ConfigEntryAuthFailed
  ∧ (fboard_refresh now (Raise FireboardApiAuthError) c).2
    = Raise ConfigEntryAuthFailed
  ∧ let c' := (fboard_refresh now (Raise FireboardApiAuthError) c).1 in
    co_state c' = Failed_Auth
    ∧ co_timer c' = None
    ∧ currentSnapshot c' = currentSnapshot c
    ∧ co_notified c' = co_notified c
    ∧ ∀ later fetched,
        fboard_tick later fetched c' = c'
        ∧ co_fetches (fboard_tick later fetched c') = co_fetches c'.
Proof.
  unfold fboard_refresh, fboard_tick, tick, refresh. simpl.
  destruct (co_state c); repeat split.
Qed.

(** C4: when the fetch fails with a transient error and the coordinator is
    not in [Failed_Auth], the update method raises the recoverable failure:
    [UpdateFailed] with its message for the API client's error, the
    exception itself for a timeout or a network error. The refresh hands it
    to its caller; the coordinator is [Ready] and the published snapshot is
    the one from before. Periodic refresh goes on: the timer is due one
    interval later, a tick before that changes nothing, and a tick from
    then on fetches again and publishes what a successful fetch brings. The
    interval is the one set at the start, also after any run of transient
    failures before this one. *)
Theorem C4_transient_failure (c : Coordinator) (now : nat) (e : exn) :
  transient e = true →
  co_state c ≠ Failed_Auth →
  let c' := (fboard_refresh now (Raise e) c).1 in
  let due := (now + co_update_interval c)%nat in
  async_update_data (Raise e) = Raise (surfaced e)
  ∧ (∀ err, e = FireboardApiError err →
       surfaced e = UpdateFailed ("Error communicating with API: " +:+ err))
  ∧ surfaced e ≠ ConfigEntryAuthFailed
  ∧ (fboard_refresh now (Raise e) c).2 = Raise (surfaced e)
  ∧ co_state c' = Ready
  ∧ currentSnapshot c' = currentSnapshot c
  ∧ co_update_interval c' = co_update_interval c
  ∧ co_timer c' = Some due
  ∧ co_notified c' = co_notified c
  ∧ (∀ later fetched, (later < due)%nat → fboard_tick later fetched c' = c')
  ∧ (∀ later fetched, (due ≤ later)%nat →
       fboard_tick later fetched c' = (fboard_refresh later fetched c').1
       ∧ co_fetches (fboard_tick later fetched c') = S (co_fetches c'))
  ∧ (∀ later devs, (due ≤ later)%nat →
       currentSnapshot (fboard_tick later (Ok devs) c') = project devs
       ∧ co_state (fboard_tick later (Ok devs) c') = Ready
       ∧ co_timer (fboard_tick later (Ok devs) c')
         = Some (later + co_update_interval c)%nat)
  ∧ ∀ before, Forall (λ ev, transient ev.2 = true) before →
      let c'' := (fboard_refresh now (Raise e) (fboard_failures before c)).1 in
      co_state c'' = Ready
      ∧ currentSnapshot c'' = currentSnapshot c
      ∧ co_timer c'' = Some due.
Proof.
  intros He Hstate c' due.
  pose proof (refresh_transient now e c He Hstate) as Hstep.
  assert (c' = {| co_state := Ready;
                  co_data := co_data c;
                  co_update_interval := co_update_interval c;
                  co_timer := Some due;
                  co_fetches := S (co_fetches c);
                  co_notified := co_notified c |}) as Hc'.
  { unfold c', fboard_refresh. by rewrite Hstep. }
  assert (∀ later fetched, (due ≤ later)%nat →
    fboard_tick later fetched c' = (fboard_refresh later fetched c').1) as Htick.
  { intros later fetched Hdue. rewrite Hc'. unfold fboard_tick, tick.
    simpl. by rewrite decide_True. }
  split; [by destruct e|]. split; [by intros err ->|]. split; [by destruct e|].
  split; [unfold fboard_refresh; by rewrite Hstep|].
  do 5 (split; [by rewrite Hc'|]). split; [|split; [|split]].
  - intros later fetched Hlater. rewrite Hc'. unfold fboard_tick, tick. simpl.
    by rewrite decide_False by lia.
  - intros later fetched Hdue. split; [by apply Htick|].
    rewrite (Htick later fetched Hdue), Hc'. unfold fboard_refresh, refresh. simpl.
    by destruct (async_update_data fetched) as [snap|[]].
  - intros later devs Hdue. rewrite (Htick later (Ok devs) Hdue), Hc'. done.
  - intros before Hbefore c''.
    destruct (fboard_failures_keep before c Hbefore) as [Hsnap Hinterval].
    pose proof (fboard_failures_state before c Hbefore Hstate) as Hstate'.
    unfold c'', fboard_refresh.
    rewrite (refresh_transient now e _ He Hstate'). simpl.
    unfold currentSnapshot in *. unfold due. by rewrite Hsnap, Hinterval.
Qed.

(** The coordinator of the platform, after a first successful refresh at
    time 0, meets a timeout at time 20; the tick at time 40 fetches again
    and publishes. *)
Lemma C4_transient_failure_witness :
  let ready := (fboard_refresh 0 (Ok [smoker]) coordinator).1 in
  let c' := (fboard_refresh 20 (Raise TimeoutError) ready).1 in
  co_state c' = Ready
  ∧ currentSnapshot c' = project [smoker]
  ∧ co_timer c' = Some 40%nat
  ∧ currentSnapshot (fboard_tick 40 (Ok [smoker; oven]) c')
    = project [smoker; oven].
Proof.
  intros ready c'.
  destruct (C4_transient_failure ready 20 TimeoutError)
    as (_ & _ & _ & _ & Hstate & Hsnap & _ & Htimer & _ & _ & _ & Hnext & _).
  - reflexivity.
  - discriminate.
  - split; [exact Hstate|]. split; [exact Hsnap|]. split; [exact Htimer|].
    destruct (Hnext 40%nat [smoker; oven]) as [Hpublished _].
    + simpl. lia.
    + exact Hpublished.
Defined.

(** ** The Tailscale sensors *)

(** C9: for a snapshot keyed by device id, setup makes one sensor entity per
    device: as many entities as devices, bound to pairwise distinct device
    ids, which are exactly the keys of the snapshot. Each is of the
    timestamp class, and its value is read at the time of the access: in
    any snapshot that has the entity's device, it is the [expires] field of
    that device there, [None] included. *)
Theorem C9_expires (data : gmap string Tailscale.TailscaleDevice) :
  (∀ k d, data !! k = Some d → Tailscale.device_id d = k) →
  let entities := Tailscale.async_setup_entry data in
  length entities = size data
  ∧ NoDup (Tailscale.self_device_id <$> entities)
  ∧ (∀ k, k ∈ dom data ↔ k ∈ Tailscale.self_device_id <$> entities)
  ∧ ∀ e, e ∈ entities →
      Tailscale.device_class (Tailscale.entity_description e)
      = Some Tailscale.TIMESTAMP
      ∧ (∃ d, data !! Tailscale.self_device_id e = Some d
              ∧ Tailscale.native_value data e = Ok (Tailscale.expires d))
      ∧ ∀ data' d',
          data' !! Tailscale.self_device_id e = Some d' →
          Tailscale.native_value data' e = Ok (Tailscale.expires d').
Proof.
  intros Hkeyed entities.
  pose proof (tailscale_entity_ids data Hkeyed) as Hids.
  assert (∀ e, e ∈ entities → ∀ data' d',
    data' !! Tailscale.self_device_id e = Some d' →
    Tailscale.native_value data' e = Ok (Tailscale.expires d')) as Hvalue.
  { intros e He data' d' Hd'. unfold entities in He.
    rewrite tailscale_entities in He.
    apply list_elem_of_fmap in He as ([k d] & -> & _).
    unfold Tailscale.native_value, getitem. simpl in *. by rewrite Hd'. }
  split; [|split; [|split]].
  - unfold entities. rewrite tailscale_entities, length_fmap.
    apply length_map_to_list.
  - fold entities in Hids. rewrite Hids. apply NoDup_fst_map_to_list.
  - intros k. fold entities in Hids. rewrite Hids, elem_of_dom.
    rewrite list_elem_of_fmap. split.
    + intros [d Hd]. exists (k, d). split; [done|]. by apply elem_of_map_to_list.
    + intros ([k' d] & -> & Hkd). exists d. by apply elem_of_map_to_list.
  - intros e He. split; [|split].
    + unfold entities in He. rewrite tailscale_entities in He.
      by apply list_elem_of_fmap in He as ([k d] & -> & _).
    + assert (Tailscale.self_device_id e ∈ dom data) as [d Hd]%elem_of_dom.
      { fold entities in Hids. rewrite elem_of_dom.
        assert (Tailscale.self_device_id e ∈ (map_to_list data).*1) as Hin.
        { rewrite <-Hids. apply list_elem_of_fmap. eauto. }
        apply list_elem_of_fmap in Hin as ([k' d] & -> & Hkd).
        exists d. by apply elem_of_map_to_list. }
      exists d. split; [done|]. by apply Hvalue.
    + by apply Hvalue.
Qed.

(** Two devices, two entities; the one without expiry reads [None]. *)
Lemma C9_expires_witness :
  length (Tailscale.async_setup_entry tailnet) = 2%nat
  ∧ ∀ e, e ∈ Tailscale.async_setup_entry tailnet →
      Tailscale.self_device_id e = "n2" →
      Tailscale.native_value tailnet e = Ok None.
Proof.
  destruct (C9_expires tailnet) as (Hlen & _ & _ & Hentity).
  - intros k d Hkd. apply elem_of_map_to_list in Hkd.
    assert (Forall (λ kd, Tailscale.device_id kd.2 = kd.1) (map_to_list tailnet))
      as Hall.
    { apply (bool_decide_unpack _). by vm_compute. }
    rewrite Forall_forall in Hall. by apply (Hall (k, d)).
  - split; [exact Hlen|]. intros e He Hid.
    destruct (Hentity e He) as (_ & _ & Hvalue).
    apply (Hvalue tailnet {| Tailscale.device_id := "n2"; Tailscale.expires := None |}).
    by rewrite Hid.
Defined.

(** * Further properties of the projection *)

(** ** Composition, order and collisions *)

Lemma writes_app (devs1 devs2 : list RawDevice) :
  writes (devs1 ++ devs2) = writes devs1 ++ writes devs2.
Proof. unfold writes. apply bind_app. Qed.

Lemma project_union_of_parts (devs1 devs2 : list RawDevice) :
  project (devs1 ++ devs2) = project devs2 ∪ project devs1.
Proof. by rewrite !project_writes, writes_app, reverse_app, list_to_map_app. Qed.

(** X1: the snapshot of a list of devices in two parts is the snapshot of
    the later part laid over that of the earlier part: a key that the later
    part assigns reads the later record, any other key reads what the
    earlier part left, and the keys are those of both parts. *)
Theorem project_app (devs1 devs2 : list RawDevice) :
  project (devs1 ++ devs2) = project devs2 ∪ project devs1
  ∧ dom (project (devs1 ++ devs2)) = dom (project devs1) ∪ dom (project devs2)
  ∧ (∀ k r, project devs2 !! k = Some r →
       project (devs1 ++ devs2) !! k = Some r)
  ∧ (∀ k, project devs2 !! k = None →
       project (devs1 ++ devs2) !! k = project devs1 !! k).
Proof.
  pose proof (project_union_of_parts devs1 devs2) as Happ.
  split; [done|]. rewrite Happ. split; [|split].
  - rewrite dom_union_L. apply (comm_L (∪)).
  - intros k r Hk. by apply lookup_union_Some_l.
  - intros k Hk. by apply lookup_union_r.
Qed.

(** X2: where no key is assigned twice, the order of the devices in the
    fetched list does not matter for the snapshot. *)
Theorem project_Permutation (devs devs' : list RawDevice) :
  NoDup (devs ≫= keys_of) → devs ≡ₚ devs' → project devs = project devs'.
Proof.
  intros Hnd Hperm. rewrite !project_writes.
  apply list_to_map_proper.
  - by rewrite fmap_reverse, writes_keys, reverse_Permutation.
  - rewrite !reverse_Permutation. unfold writes. by rewrite Hperm.
Qed.

Lemma project_Permutation_witness :
  project [smoker; oven; grill] = project [grill; smoker; oven].
Proof.
  apply (project_Permutation [smoker; oven; grill] [grill; smoker; oven]).
  - apply (bool_decide_unpack _). by vm_compute.
  - apply (Permutation_app_comm [smoker; oven] [grill]).
Defined.

Lemma writes_origin (devs : list RawDevice) (k : string) (r : Entity) :
  (k, r) ∈ writes devs →
  ∃ d, d ∈ devs
    ∧ ((k, r) = (battery_unique_id (hardware_id d),
                 battery_sensor (parent_device_of d)
                   (battery_unique_id (hardware_id d)))
       ∨ ∃ c, c ∈ channels d
           ∧ (k, r) = channel_write (parent_device_of d) (latest_temps d) c).
Proof.
  unfold writes. intros (d & Hkr & Hd)%list_elem_of_bind.
  exists d. split; [done|]. unfold device_writes in Hkr.
  apply elem_of_cons in Hkr as [Hkr|Hkr]; [by left|right].
  apply list_elem_of_fmap in Hkr as (c & Hkr & Hc). eauto.
Qed.

(** X3: every record of a snapshot stores the key it is kept under as its
    [unique_id], names Fireboard Labs as manufacturer, and was built from
    one device of the fetched list: a battery record under that device's
    battery key, a channel record under the key of one of its channels with
    the state that the search of its readings gives. *)
Theorem project_record_origin (devs : list RawDevice) (k : string) (r : Entity) :
  project devs !! k = Some r →
  entity_unique_id r = k
  ∧ pd_manufacturer (parent_device r) = "Fireboard Labs"
  ∧ ∃ d, d ∈ devs
      ∧ parent_device r = parent_device_of d
      ∧ k ∈ keys_of d
      ∧ match r with
        | battery_sensor _ _ => k = battery_unique_id (hardware_id d)
        | sensor_entity c _ st _ =>
            c ∈ channels d
            ∧ k = channel_unique_id (hardware_id d) (channel c)
            ∧ st = channel_temp (latest_temps d) (channel c)
        end.
Proof.
  intros Hk. apply project_lookup_written, writes_origin in Hk.
  destruct Hk as (d & Hd & [Hkr|(c & Hc & Hkr)]).
  - injection Hkr as -> ->. split; [done|]. split; [done|].
    exists d. split; [done|]. split; [done|]. split; [|done].
    apply list_elem_of_here.
  - unfold channel_write in Hkr. injection Hkr as -> ->.
    split; [done|]. split; [done|].
    exists d. split; [done|]. split; [done|]. split; [|done].
    unfold keys_of, device_keys. apply list_elem_of_further.
    rewrite <-list_fmap_compose. apply list_elem_of_fmap. by exists c.
Qed.

Lemma project_record_origin_witness :
  ∃ d, d ∈ [smoker; grill]
    ∧ parent_device (sensor_entity {| channel := 3; channel_label := "Pit" |}
                       (parent_device_of grill) (Some (PyInt 225)) "battery9_03")
      = parent_device_of d
    ∧ "battery9_03" ∈ keys_of d.
Proof.
  destruct (project_record_origin [smoker; grill] "battery9_03"
              (sensor_entity {| channel := 3; channel_label := "Pit" |}
                 (parent_device_of grill) (Some (PyInt 225)) "battery9_03"))
    as (_ & _ & d & Hd & Hparent & Hkey & _).
  - reflexivity.
  - by exists d.
Defined.

Lemma size_list_to_set_le (l : list string) :
  (size (list_to_set l : gset string) ≤ length l)%nat.
Proof.
  induction l as [|x l IH]; [done|].
  rewrite list_to_set_cons, size_union_alt, size_singleton. simpl.
  assert (size (list_to_set l ∖ {[x]} : gset string)
          ≤ size (list_to_set l : gset string))%nat as Hsub.
  { apply subseteq_size, subseteq_difference_l. done. }
  lia.
Qed.

Lemma size_list_to_set_NoDup (l : list string) :
  size (list_to_set l : gset string) = length l ↔ NoDup l.
Proof.
  split; [|apply size_list_to_set].
  induction l as [|x l IH]; [constructor|]. intros Hsize.
  assert (x ∉ l) as Hx.
  { intros Hx.
    assert (list_to_set (x :: l) = (list_to_set l : gset string)) as Heq.
    { rewrite list_to_set_cons. apply set_eq. intros y.
      rewrite elem_of_union, elem_of_singleton, elem_of_list_to_set.
      split; [by intros [->|?]|auto]. }
    rewrite Heq in Hsize. pose proof (size_list_to_set_le l). simpl in Hsize. lia. }
  apply NoDup_cons. split; [done|]. apply IH.
  rewrite list_to_set_cons, size_union, size_singleton in Hsize.
  - simpl in Hsize. lia.
  - apply disjoint_singleton_l. by rewrite elem_of_list_to_set.
Qed.

Lemma length_keys (devs : list RawDevice) :
  length (devs ≫= keys_of) = assignments devs.
Proof.
  unfold assignments. induction devs as [|d devs IH]; [done|].
  rewrite bind_cons, length_app, IH, fmap_cons. simpl.
  unfold keys_of, device_keys. simpl. by rewrite !length_fmap.
Qed.

(** X4: a snapshot never has more records than one per device and one per
    channel, and it has exactly that many when, and only when, no key is
    assigned twice: records are lost to collisions and to nothing else. *)
Theorem project_size (devs : list RawDevice) :
  (size (project devs) ≤ assignments devs)%nat
  ∧ (size (project devs) = assignments devs ↔ NoDup (devs ≫= keys_of)).
Proof.
  rewrite <-size_dom, dom_project, <-length_keys. split.
  - apply size_list_to_set_le.
  - apply size_list_to_set_NoDup.
Qed.

(** X5: the device fetched last keeps its records whatever came before it,
    also under keys that earlier devices of the list were assigned: with
    pairwise distinct channel indices its battery record and the record of
    each of its channels are the ones read from the snapshot. *)
Theorem project_last_device (devs : list RawDevice) (d : RawDevice) :
  NoDup (channel <$> channels d) →
  let snap := project (devs ++ [d]) in
  snap !! battery_unique_id (hardware_id d)
  = Some (battery_sensor (parent_device_of d) (battery_unique_id (hardware_id d)))
  ∧ ∀ c, c ∈ channels d →
      snap !! channel_unique_id (hardware_id d) (channel c)
      = Some (sensor_entity c (parent_device_of d)
                (channel_temp (latest_temps d) (channel c))
                (channel_unique_id (hardware_id d) (channel c))).
Proof.
  intros Hnd snap. unfold snap. rewrite project_union_of_parts.
  assert (NoDup ([d] ≫= keys_of)) as Hkeys.
  { rewrite bind_singleton. by apply keys_of_NoDup. }
  assert (d ∈ [d]) as Hd by apply list_elem_of_here.
  split.
  - apply lookup_union_Some_l. by apply project_lookup_battery.
  - intros c Hc. apply lookup_union_Some_l. by apply project_lookup_channel.
Qed.

(** The same device twice in one list: the second fetch has no readings. *)
Lemma project_last_device_witness :
  project [smoker; with_latest_temps smoker []] !! "FB1_01"
  = Some (sensor_entity {| channel := 1; channel_label := "Probe 1" |}
            (parent_device_of smoker) None "FB1_01").
Proof.
  destruct (project_last_device [smoker] (with_latest_temps smoker []))
    as [_ Hchannels].
  - apply (bool_decide_unpack _). by vm_compute.
  - apply (Hchannels {| channel := 1; channel_label := "Probe 1" |}).
    apply list_elem_of_here.
Defined.

(** ** The views made at setup *)

Lemma battery_unique_id_contains (hw : string) :
  str_contains "battery" (battery_unique_id hw) = true.
Proof.
  apply str_contains_true. exists (hw +:+ "_"), "".
  unfold battery_unique_id. by rewrite string_app_assoc.
Qed.

(** A record kept under a key without [battery] in it is a channel record. *)
Lemma plain_key_channel_record (devs : list RawDevice) (k : string) (r : Entity) :
  project devs !! k = Some r → str_contains "battery" k = false →
  ∃ c p st u, r = sensor_entity c p st u.
Proof.
  intros Hk Hplain. apply project_lookup_written, writes_origin in Hk.
  destruct Hk as (d & _ & [Hkr|(c & _ & Hkr)]).
  - injection Hkr as -> ->. by rewrite battery_unique_id_contains in Hplain.
  - unfold channel_write in Hkr. injection Hkr as -> ->. by eexists _, _, _, _.
Qed.

Lemma view_device_info_lookup (data : gmap string Entity) (k : string) (r : Entity) :
  data !! k = Some r → view_device_info data (wrap k) = Ok (device_info_of r).
Proof.
  intros Hk. unfold wrap. destruct (str_contains "battery" k); simpl.
  - unfold FireboardBattery.device_info, FireboardBattery.raw_data, getitem.
    simpl. by rewrite Hk.
  - unfold FireboardSensor.device_info, FireboardSensor.raw_data, getitem.
    simpl. by rewrite Hk.
Qed.

(** X6: a view made at setup never fails on a later snapshot of the same
    devices: whatever readings the later fetch has, its name, state, device
    info and unit are all read without a [KeyError]. In particular a sensor
    view is never bound to the key of a battery record. *)
Theorem setup_views_read (devs devs' : list RawDevice) (v : View) :
  same_devices devs devs' →
  v ∈ fireboardEntities (project devs) →
  ∃ name state info unit,
    view_name (project devs') v = Ok name
    ∧ view_state (project devs') v = Ok state
    ∧ view_device_info (project devs') v = Ok info
    ∧ view_unit_of_measurement (project devs') v = Ok unit.
Proof.
  intros Hsame (k & Hk & ->)%elem_of_fireboardEntities.
  assert (k ∈ dom (project devs')) as [r Hr]%elem_of_dom.
  { by rewrite !dom_project, <-(same_devices_keys devs devs'), <-dom_project. }
  unfold wrap. destruct (str_contains "battery" k) eqn:Hbattery; simpl.
  - unfold FireboardBattery.name, FireboardBattery.state,
      FireboardBattery.device_info, FireboardBattery.unit_of_measurement,
      FireboardBattery.raw_data, getitem. simpl. rewrite Hr. simpl.
    by eexists _, _, _, _.
  - destruct (plain_key_channel_record devs' k r Hr Hbattery)
      as (c & p & st & u & ->).
    unfold FireboardSensor.name, FireboardSensor.state,
      FireboardSensor.device_info, FireboardSensor.unit_of_measurement,
      FireboardSensor.raw_data, getitem. simpl. rewrite Hr. simpl.
    by eexists _, _, _, _.
Qed.

(** Views made from a fetch with readings, read after a fetch without. *)
Lemma setup_views_read_witness :
  ∃ name state info unit,
    view_name (project [with_latest_temps smoker []])
      (Sensor (FireboardSensor.new "FB1_02")) = Ok name
    ∧ view_state (project [with_latest_temps smoker []])
        (Sensor (FireboardSensor.new "FB1_02")) = Ok state
    ∧ view_device_info (project [with_latest_temps smoker []])
        (Sensor (FireboardSensor.new "FB1_02")) = Ok info
    ∧ view_unit_of_measurement (project [with_latest_temps smoker []])
        (Sensor (FireboardSensor.new "FB1_02")) = Ok unit.
Proof.
  apply (setup_views_read [smoker] [with_latest_temps smoker []]
           (Sensor (FireboardSensor.new "FB1_02"))).
  - repeat constructor.
  - apply elem_of_fireboardEntities. exists "FB1_02". split; [|done].
    apply (bool_decide_unpack _). by vm_compute.
Defined.

(** X7: setup makes one view per record of the snapshot; the unique ids of
    the views are pairwise distinct and are exactly the keys of the
    snapshot. *)
Theorem fireboardEntities_unique_ids (data : gmap string Entity) :
  length (fireboardEntities data) = size data
  ∧ NoDup (view_unique_id <$> fireboardEntities data)
  ∧ ∀ k, k ∈ view_unique_id <$> fireboardEntities data ↔ k ∈ dom data.
Proof.
  assert (view_unique_id <$> fireboardEntities data = (map_to_list data).*1)
    as Hids.
  { unfold fireboardEntities. rewrite <-list_fmap_compose.
    apply Forall_fmap_ext_1, Forall_forall. intros [k r] _. simpl.
    apply wrap_unique_id. }
  split; [|split].
  - unfold fireboardEntities. rewrite length_fmap. apply length_map_to_list.
  - rewrite Hids. apply NoDup_fst_map_to_list.
  - intros k. rewrite Hids, elem_of_dom, list_elem_of_fmap. split.
    + intros ([k' r] & -> & Hkr). exists r. by apply elem_of_map_to_list.
    + intros [r Hr]. exists (k, r). split; [done|]. by apply elem_of_map_to_list.
Qed.

(** X8: in a snapshot where no key is assigned twice, all views of one
    device, its battery view and the view of each of its channels of either
    class, report the same device info: the device's model, title, version
    and MAC address, the manufacturer Fireboard Labs and the hardware id as
    the one identifier. *)
Theorem device_info_shared (devs : list RawDevice) (d : RawDevice) (v : View) :
  NoDup (devs ≫= keys_of) → d ∈ devs →
  v ∈ fireboardEntities (project devs) → view_unique_id v ∈ keys_of d →
  view_device_info (project devs) v
  = Ok {| manufacturer := "Fireboard Labs";
          di_model := model d;
          di_name := title d;
          sw_version := version d;
          identifiers := {[ ("fireboard", hardware_id d) ]};
          connections := {[ (CONNECTION_NETWORK_MAC, macNIC d) ]} |}.
Proof.
  intros Hnd Hd (k & _ & ->)%elem_of_fireboardEntities Hkey.
  rewrite wrap_unique_id in Hkey. unfold keys_of, device_keys in Hkey.
  apply elem_of_cons in Hkey as [->|Hkey].
  - by rewrite (view_device_info_lookup _ _ _ (project_lookup_battery devs d Hnd Hd)).
  - rewrite <-list_fmap_compose in Hkey.
    apply list_elem_of_fmap in Hkey as (c & -> & Hc). simpl.
    by rewrite (view_device_info_lookup _ _ _ (project_lookup_channel devs d c Hnd Hd Hc)).
Qed.

Lemma device_info_shared_witness :
  view_device_info (project [smoker; grill]) (wrap "battery9_03")
  = view_device_info (project [smoker; grill]) (wrap "battery9_battery").
Proof.
  assert (NoDup ([smoker; grill] ≫= keys_of)) as Hnd.
  { apply (bool_decide_unpack _). by vm_compute. }
  assert (grill ∈ [smoker; grill]) as Hd.
  { apply list_elem_of_further, list_elem_of_here. }
  rewrite (device_info_shared [smoker; grill] grill (wrap "battery9_03") Hnd Hd).
  - rewrite (device_info_shared [smoker; grill] grill (wrap "battery9_battery") Hnd Hd).
    + reflexivity.
    + apply elem_of_fireboardEntities. exists "battery9_battery". split; [|done].
      apply (bool_decide_unpack _). by vm_compute.
    + apply (bool_decide_unpack _). by vm_compute.
  - apply elem_of_fireboardEntities. exists "battery9_03". split; [|done].
    apply (bool_decide_unpack _). by vm_compute.
  - apply (bool_decide_unpack _). by vm_compute.
Defined.

(** ** Readings, keys and the update method *)

(** X9: the state of a channel is the temperature of the first of the
    readings made for that channel, whatever readings of other channels
    stand before, between or after them. A temperature that is not [None]
    is always that of a reading of the channel itself. *)
Theorem channel_temp_filter (latest : list Reading) (ch : Z) :
  channel_temp latest ch
  = match filter (λ x, reading_channel x = ch) latest with
    | [] => None
    | x :: _ => temp x
    end
  ∧ ∀ t, channel_temp latest ch = Some t →
      ∃ x, x ∈ latest ∧ reading_channel x = ch ∧ temp x = Some t.
Proof.
  split.
  - induction latest as [|x latest IH]; [done|]. simpl.
    rewrite filter_cons. case_bool_decide as Hx.
    + by rewrite decide_True.
    + by rewrite decide_False.
  - induction latest as [|x latest IH]; [done|]. intros t. simpl.
    case_bool_decide as Hx.
    + intros Ht. exists x. split; [apply list_elem_of_here|done].
    + intros (y & Hy & Hch & Ht)%IH. exists y.
      split; [by apply list_elem_of_further|done].
Qed.

(** X10: the keys of one device never collide by themselves: two channel
    indices that differ, whatever integers they are, give keys that differ,
    and no channel key is the battery key. *)
Theorem unique_ids_distinct (hw : string) (n m : Z) :
  n ≠ m →
  channel_unique_id hw n ≠ channel_unique_id hw m
  ∧ battery_unique_id hw ≠ channel_unique_id hw n.
Proof.
  intros Hnm. split.
  - intros Heq. by apply (inj (channel_unique_id hw)) in Heq.
  - apply battery_channel_unique_id_ne.
Qed.

(** Index 1 and index 10, and index 1 and index -1. *)
Lemma unique_ids_distinct_witness :
  channel_unique_id "FB1" 1 ≠ channel_unique_id "FB1" 10
  ∧ channel_unique_id "FB1" 1 ≠ channel_unique_id "FB1" (-1).
Proof.
  split.
  - apply (unique_ids_distinct "FB1" 1 10). lia.
  - apply (unique_ids_distinct "FB1" 1 (-1)). lia.
Defined.

Lemma pretty_N_go_length (x : N) (s : string) :
  (String.length s ≤ String.length (pretty_N_go x s))%nat.
Proof.
  revert s. induction (N.lt_wf_0 x) as [x _ IH]; intros s.
  destruct (decide (0 < x)%N) as [Hx|Hx].
  - rewrite pretty_N_go_step by done.
    etrans; [|apply IH; by apply N.div_lt]. simpl. lia.
  - assert (x = 0%N) as -> by lia. by rewrite pretty_N_go_0.
Qed.

Lemma pretty_pos_length (p : positive) :
  (1 ≤ String.length (pretty (Z.pos p)))%nat
  ∧ (10 ≤ Z.pos p → (2 ≤ String.length (pretty (Z.pos p)))%nat)
  ∧ (100 ≤ Z.pos p → (3 ≤ String.length (pretty (Z.pos p)))%nat).
Proof.
  unfold pretty, pretty_Z, pretty, pretty_positive, pretty, pretty_N.
  rewrite decide_False by done.
  rewrite pretty_N_go_step by lia.
  split; [|split].
  - etrans; [|apply pretty_N_go_length]. simpl. lia.
  - intros Hp. rewrite pretty_N_go_step.
    + etrans; [|apply pretty_N_go_length]. simpl. lia.
    + apply N.div_str_pos. lia.
  - intros Hp.
    assert (10 ≤ N.pos p `div` 10)%N as Hq.
    { apply N.div_le_lower_bound; lia. }
    rewrite pretty_N_go_step by lia.
    rewrite pretty_N_go_step.
    + etrans; [|apply pretty_N_go_length]. simpl. lia.
    + apply N.div_str_pos. lia.
Qed.

(** X11: a formatted channel index has at least two characters, and exactly
    two for the indices from -9 to 99 and no others: from 100 on, and from
    -10 down, the key of a channel is longer than the two-digit form. *)
Theorem format_02_length (n : Z) :
  (2 ≤ String.length (format_02 n))%nat
  ∧ (String.length (format_02 n) = 2%nat ↔ -9 ≤ n ≤ 99).
Proof.
  destruct (decide (0 ≤ n ≤ 99)) as [Hn|Hn].
  { rewrite format_02_two_digits by done. simpl. split; [lia|]. split; [lia|done]. }
  destruct n as [|p|p]; [lia| |].
  - destruct (pretty_pos_length p) as (_ & _ & Hlen).
    unfold format_02. rewrite bool_decide_eq_false_2 by lia.
    specialize (Hlen ltac:(lia)). split; [lia|]. split; lia.
  - unfold format_02. rewrite bool_decide_eq_false_2 by lia.
    rewrite pretty_neg_head.
    destruct (pretty_pos_length p) as (Hone & Htwo & _).
    change (pretty p) with (pretty (Z.pos p)). simpl String.length.
    split; [lia|]. split.
    + intros Hlen. destruct (decide (10 ≤ Z.pos p)) as [Hp|Hp]; [|lia].
      specialize (Htwo Hp). lia.
    + intros Hsmall.
      assert (p = 1 ∨ p = 2 ∨ p = 3 ∨ p = 4 ∨ p = 5 ∨ p = 6 ∨ p = 7
              ∨ p = 8 ∨ p = 9)%positive as Hcases by lia.
      repeat (destruct Hcases as [->|Hcases]; [done|]). by subst.
Qed.

(** X12: what the update method makes of the outcome of the fetch, the
    fetched records being well formed. A fetched list comes back as its
    projection, and a snapshot comes back in no other case. The API client's
    authentication error becomes [ConfigEntryAuthFailed]; its other error
    becomes [UpdateFailed] with the message Error communicating with API
    followed by the error's text; every other exception of the fetch, a
    timeout or a network error among them, passes through as it is. So no
    exception of the API client ever leaves the update method. *)
Theorem async_update_data_outcomes (fetched : result (list RawDevice)) :
  (∀ devs, fetched = Ok devs → async_update_data fetched = Ok (project devs))
  ∧ (∀ snap, async_update_data fetched = Ok snap →
       ∃ devs, fetched = Ok devs ∧ snap = project devs)
  ∧ (fetched = Raise FireboardApiAuthError →
     async_update_data fetched = Raise ConfigEntryAuthFailed)
  ∧ (∀ err, fetched = Raise (FireboardApiError err) →
       async_update_data fetched
       = Raise (UpdateFailed ("Error communicating with API: " +:+ err)))
  ∧ (∀ e, fetched = Raise e → e ≠ FireboardApiAuthError →
       (∀ err, e ≠ FireboardApiError err) →
       async_update_data fetched = Raise e)
  ∧ async_update_data fetched ≠ Raise FireboardApiAuthError
  ∧ ∀ err, async_update_data fetched ≠ Raise (FireboardApiError err).
Proof.
  split; [by intros devs ->|]. split.
  { destruct fetched as [devs|[]]; simpl; intros snap Heq; try discriminate Heq.
    injection Heq as <-. by exists devs. }
  split; [by intros ->|]. split; [by intros err ->|]. split.
  { intros e -> Hauth Hapi. destruct e; try done. by destruct (Hapi err). }
  split.
  - by destruct fetched as [devs|[]].
  - intros err. by destruct fetched as [devs|[]].
Qed.

(** * The registry of API clients *)

Section registry.
Import fboard.
Implicit Types (hass : gmap string (gmap string FireboardAPI)).
Implicit Types (entry : ConfigEntry).

Lemma setup_inv hass entry hd b :
  fboard.async_setup_entry hass entry = Ok (hd, b) →
  ∃ email password,
    fboard.data entry !! CONF_EMAIL = Some email
    ∧ fboard.data entry !! CONF_PASSWORD = Some password
    ∧ b = true
    ∧ hd = <[DOMAIN := {[ entry_id entry := {| api_email := email;
                                                api_password := password |} ]}]> hass.
Proof.
  unfold fboard.async_setup_entry, getitem. intros Hsetup.
  destruct (fboard.data entry !! CONF_EMAIL) as [email|]; [|done].
  destruct (fboard.data entry !! CONF_PASSWORD) as [password|]; [|done].
  simpl in Hsetup. rewrite lookup_insert_eq in Hsetup. simpl in Hsetup.
  injection Hsetup as <- <-. exists email, password.
  by rewrite insert_insert_eq, insert_empty.
Qed.

Lemma api_client_lookup hass entry registry :
  hass !! DOMAIN = Some registry →
  api_client hass entry = getitem registry (entry_id entry).
Proof. intros Hreg. unfold api_client, getitem. by rewrite Hreg. Qed.
End registry.

(** X13: setting up an entry needs the email and the password in the
    entry's data, and fails with the [KeyError] of the first one missing.
    With both it returns [True]; afterwards the sensor platform finds under
    the entry's id a client made with exactly these credentials, the
    registry holds this one client and no other, and the rest of
    [hass.data] is as before. *)
Theorem fboard_setup_outcome (hass : gmap string (gmap string fboard.FireboardAPI))
    (entry : fboard.ConfigEntry) :
  match fboard.data entry !! fboard.CONF_EMAIL,
        fboard.data entry !! fboard.CONF_PASSWORD with
  | Some email, Some password =>
      let client := {| fboard.api_email := email;
                       fboard.api_password := password |} in
      ∃ hd, fboard.async_setup_entry hass entry = Ok (hd, true)
        ∧ fboard.api_client hd entry = Ok client
        ∧ hd !! fboard.DOMAIN = Some {[ fboard.entry_id entry := client ]}
        ∧ ∀ key, key ≠ fboard.DOMAIN → hd !! key = hass !! key
  | None, _ =>
      fboard.async_setup_entry hass entry = Raise (KeyError fboard.CONF_EMAIL)
  | Some _, None =>
      fboard.async_setup_entry hass entry = Raise (KeyError fboard.CONF_PASSWORD)
  end.
Proof.
  unfold fboard.async_setup_entry, getitem.
  destruct (fboard.data entry !! fboard.CONF_EMAIL) as [email|]; [|done].
  destruct (fboard.data entry !! fboard.CONF_PASSWORD) as [password|]; [|done].
  simpl. rewrite lookup_insert_eq. simpl. eexists. split; [done|].
  rewrite insert_insert_eq, insert_empty. split; [|split].
  - rewrite (api_client_lookup _ _ _ (lookup_insert_eq _ _ _)).
    unfold getitem. by rewrite lookup_singleton_eq.
  - by rewrite lookup_insert_eq.
  - intros key Hkey. by rewrite lookup_insert_ne.
Qed.

(** X14: setting up a second entry starts the registry afresh: the client
    of the entry set up before is gone, so both the sensor platform's
    lookup for the first entry and the unloading of the first entry fail
    with the [KeyError] of its id, while the second entry has its client. *)
Theorem fboard_setup_discards
    (hass hd1 hd2 : gmap string (gmap string fboard.FireboardAPI))
    (first second : fboard.ConfigEntry) (b1 b2 : bool) :
  fboard.async_setup_entry hass first = Ok (hd1, b1) →
  fboard.async_setup_entry hd1 second = Ok (hd2, b2) →
  fboard.entry_id first ≠ fboard.entry_id second →
  fboard.api_client hd2 first = Raise (KeyError (fboard.entry_id first))
  ∧ fboard.async_unload_entry hd2 first true
    = Raise (KeyError (fboard.entry_id first))
  ∧ ∃ client, fboard.api_client hd2 second = Ok client.
Proof.
  intros _ (email & password & _ & _ & _ & ->)%setup_inv Hne.
  split; [|split].
  - rewrite (api_client_lookup _ _ _ (lookup_insert_eq _ _ _)).
    unfold getitem. by rewrite lookup_singleton_ne.
  - unfold fboard.async_unload_entry, getitem. rewrite lookup_insert_eq. simpl.
    unfold pop. by rewrite lookup_singleton_ne.
  - rewrite (api_client_lookup _ _ _ (lookup_insert_eq _ _ _)).
    unfold getitem. rewrite lookup_singleton_eq. by eexists.
Qed.

Lemma fboard_setup_discards_witness :
  ∃ hd2, (hd1 ← fboard.async_setup_entry ∅ entry_a;
          fboard.async_setup_entry hd1.1 entry_b) = Ok (hd2, true)
    ∧ fboard.api_client hd2 entry_a = Raise (KeyError "a1").
Proof.
  destruct (fboard.async_setup_entry ∅ entry_a) as [[hd1 b1]|] eqn:Hfirst;
    [|discriminate Hfirst].
  destruct (fboard.async_setup_entry hd1 entry_b) as [[hd2 b2]|] eqn:Hsecond.
  - destruct (fboard_setup_discards ∅ hd1 hd2 entry_a entry_b b1 b2 Hfirst Hsecond)
      as (Hgone & _ & _); [done|].
    exists hd2. split; [|exact Hgone]. simpl. rewrite Hsecond.
    by apply setup_inv in Hsecond as (email & password & _ & _ & -> & _).
  - apply setup_inv in Hfirst as (email & password & _ & _ & _ & ->).
    discriminate Hsecond.
Defined.

(** X15: unloading an entry whose client is in the registry removes that
    client and no other: afterwards the lookup for the entry fails with the
    [KeyError] of its id, and so does unloading it once more, while the
    clients of all other entries are found as before. When the platforms
    did not unload, nothing changes and [False] is returned. *)
Theorem fboard_unload (hass : gmap string (gmap string fboard.FireboardAPI))
    (entry : fboard.ConfigEntry) (client : fboard.FireboardAPI) :
  fboard.api_client hass entry = Ok client →
  fboard.async_unload_entry hass entry false = Ok (hass, false)
  ∧ ∃ hd, fboard.async_unload_entry hass entry true = Ok (hd, true)
      ∧ fboard.api_client hd entry = Raise (KeyError (fboard.entry_id entry))
      ∧ fboard.async_unload_entry hd entry true
        = Raise (KeyError (fboard.entry_id entry))
      ∧ ∀ other, fboard.entry_id other ≠ fboard.entry_id entry →
          fboard.api_client hd other = fboard.api_client hass other.
Proof.
  unfold fboard.api_client at 1, getitem. intros Hclient.
  destruct (hass !! fboard.DOMAIN) as [registry|] eqn:Hreg; [|done].
  simpl in Hclient.
  destruct (registry !! fboard.entry_id entry) as [c|] eqn:Hentry; [|done].
  split; [done|]. eexists. split.
  { unfold fboard.async_unload_entry, getitem, pop. rewrite Hreg. simpl.
    by rewrite Hentry. }
  simpl. split; [|split].
  - rewrite (api_client_lookup _ _ _ (lookup_insert_eq _ _ _)).
    unfold getitem. by rewrite lookup_delete_eq.
  - unfold fboard.async_unload_entry, getitem, pop. rewrite lookup_insert_eq.
    simpl. by rewrite lookup_delete_eq.
  - intros other Hother.
    rewrite (api_client_lookup _ _ _ (lookup_insert_eq _ _ _)).
    rewrite (api_client_lookup _ _ _ Hreg).
    unfold getitem. by rewrite lookup_delete_ne.
Qed.

(** An entry set up and then unloaded. *)
Lemma fboard_unload_witness :
  ∃ hd, (hd1 ← fboard.async_setup_entry ∅ entry_a;
         fboard.async_unload_entry hd1.1 entry_a true) = Ok (hd, true)
    ∧ fboard.api_client hd entry_a = Raise (KeyError "a1").
Proof.
  destruct (fboard.async_setup_entry ∅ entry_a) as [[hd1 b1]|] eqn:Hfirst;
    [|discriminate Hfirst].
  apply setup_inv in Hfirst as (email & password & _ & _ & _ & ->).
  destruct (fboard_unload
              (<[fboard.DOMAIN := {[ fboard.entry_id entry_a :=
                   {| fboard.api_email := email;
                      fboard.api_password := password |} ]}]> ∅)
              entry_a
              {| fboard.api_email := email; fboard.api_password := password |})
    as (_ & hd & Hunload & Hgone & _).
  - rewrite (api_client_lookup _ _ _ (lookup_insert_eq _ _ _)).
    unfold getitem. by rewrite lookup_singleton_eq.
  - exists hd. split; [exact Hunload|exact Hgone].
Defined.

(** * Tailscale entities across refreshes *)

(** X16: a Tailscale sensor reads whatever the snapshot holds for its device
    at the time of the access. When a refresh replaces a device, the sensor
    of that device reads the new record and all others read as before; when
    a refresh drops a device, the sensor of that device fails with the
    [KeyError] of the device id and all others read as before. *)
Theorem tailscale_native_value_refresh
    (data : gmap string Tailscale.TailscaleDevice) (k : string)
    (device : Tailscale.TailscaleDevice) (e : Tailscale.TailscaleSensorEntity) :
  Tailscale.native_value (<[k := device]> data) e
  = (if decide (Tailscale.self_device_id e = k)
     then Ok (Tailscale.value_fn (Tailscale.entity_description e) device)
     else Tailscale.native_value data e)
  ∧ Tailscale.native_value (delete k data) e
    = (if decide (Tailscale.self_device_id e = k)
       then Raise (KeyError k)
       else Tailscale.native_value data e).
Proof.
  unfold Tailscale.native_value, getitem.
  destruct (decide (Tailscale.self_device_id e = k)) as [->|Hne].
  - by rewrite lookup_insert_eq, lookup_delete_eq.
  - by rewrite lookup_insert_ne, lookup_delete_ne.
Qed.

(** * Names of the views *)

Lemma view_name_lookup (data : gmap string Entity) (k : string) (r : Entity) :
  data !! k = Some r →
  view_name data (wrap k)
  = if str_contains "battery" k
    then Ok (pd_name (parent_device r) +:+ " Battery")
    else label ← entity_channel_label r;
         Ok (pd_name (parent_device r) +:+ " " +:+ label).
Proof.
  intros Hk. unfold wrap. destruct (str_contains "battery" k); simpl.
  - unfold FireboardBattery.name, FireboardBattery.raw_data, getitem.
    simpl. by rewrite Hk.
  - unfold FireboardSensor.name, FireboardSensor.raw_data, getitem.
    simpl. by rewrite Hk.
Qed.

(** X17: in a snapshot where no key is assigned twice, the battery view of a
    device is named by the device's title followed by Battery, and the view
    that setup makes for a channel by the title followed by the channel's
    label. The exception is a channel whose key contains [battery]: its
    view carries the name of the battery view, label and all. *)
Theorem view_names (devs : list RawDevice) (d : RawDevice) :
  NoDup (devs ≫= keys_of) → d ∈ devs →
  let snap := project devs in
  view_name snap (wrap (battery_unique_id (hardware_id d)))
  = Ok (title d +:+ " Battery")
  ∧ ∀ c, c ∈ channels d →
      let k := channel_unique_id (hardware_id d) (channel c) in
      view_name snap (wrap k)
      = if str_contains "battery" k then Ok (title d +:+ " Battery")
        else Ok (title d +:+ " " +:+ channel_label c).
Proof.
  intros Hnd Hd snap. split.
  - unfold snap.
    rewrite (view_name_lookup _ _ _ (project_lookup_battery devs d Hnd Hd)).
    by rewrite battery_unique_id_contains.
  - intros c Hc k. unfold snap, k.
    rewrite (view_name_lookup _ _ _ (project_lookup_channel devs d c Hnd Hd Hc)).
    by destruct (str_contains _ _).
Qed.

(** The probe of the device with hardware id [battery9] is named like the
    battery; the ambient probe of the other device by its label. *)
Lemma view_names_witness :
  view_name (project [smoker; grill]) (wrap "battery9_03") = Ok "Grill Battery"
  ∧ view_name (project [smoker; grill]) (wrap "FB1_12") = Ok "Smoker Ambient".
Proof.
  assert (NoDup ([smoker; grill] ≫= keys_of)) as Hnd.
  { apply (bool_decide_unpack _). by vm_compute. }
  split.
  - destruct (view_names [smoker; grill] grill Hnd) as [_ Hchannels].
    + apply list_elem_of_further, list_elem_of_here.
    + apply (Hchannels {| channel := 3; channel_label := "Pit" |}).
      apply list_elem_of_here.
  - destruct (view_names [smoker; grill] smoker Hnd) as [_ Hchannels].
    + apply list_elem_of_here.
    + apply (Hchannels {| channel := 12; channel_label := "Ambient" |}).
      do 2 apply list_elem_of_further. apply list_elem_of_here.
Defined.
